(** * SmartMask: the PII detection and masking engine of [celltest.py]

    A shallow embedding of the detection-and-masking core
    ([detect_pii_rules], [detect_pii_ml], [detect_pii], [mask_value],
    [mask_text]) together with the parts of the Python runtime the code
    relies on: [str] slicing, [str.replace], [str.split], [dict.get],
    truthiness, and the fragment of the [re] module that the four compiled
    patterns use. *)

From Stdlib Require Import QArith.
From Stdlib Require Import Strings.String Strings.Ascii.
From stdpp Require Import gmap list.

Local Open Scope nat_scope.

(** ** Python values *)

(** A Python [str] is a sequence of Unicode code points. *)
Abbreviation str := (list N).

(** Source literals are written as Rocq strings and read code point by
    code point. *)
Definition lit (s : string) : str := N_of_ascii <$> list_ascii_of_string s.

(** The values a detection dictionary can hold.  A float is represented by
    the decimal fraction its literal denotes; the engine never computes with
    confidences. *)
Inductive pyval :=
  | PNone
  | PBool (b : bool)
  | PInt (z : Z)
  | PFloat (q : Q)
  | PStr (s : str).

(** Detections are plain dictionaries with string keys. *)
Abbreviation dict := (gmap (list N) pyval).

Inductive exn := TypeError | AttributeError | ValueError | IndexError.

Inductive result (A : Type) :=
  | Ok (a : A)
  | Raise (e : exn).
Arguments Ok {A} a.
Arguments Raise {A} e.

#[global] Instance result_ret : MRet result := λ A a, Ok a.
#[global] Instance result_bind : MBind result := λ A B f r,
  match r with
  | Ok a => f a
  | Raise e => Raise e
  end.

(** [if value:] *)
Definition truthy (v : pyval) : bool :=
  match v with
  | PNone => false
  | PBool b => b
  | PInt z => negb (z =? 0)%Z
  | PFloat q => negb (Qeq_bool q 0)
  | PStr s => negb (bool_decide (s = []))
  end.

(** [x == "literal"]: a value that is not a [str] equals no [str]. *)
Definition py_eq_str (x : pyval) (s : str) : bool :=
  match x with
  | PStr t => bool_decide (t = s)
  | _ => false
  end.

(** ** String primitives *)

(** [s.startswith(old)] *)
Fixpoint starts_with (old s : str) : bool :=
  match old, s with
  | [], _ => true
  | _ :: _, [] => false
  | a :: old', c :: s' => (a =? c)%N && starts_with old' s'
  end.

(** [old in s] *)
Fixpoint contains (old s : str) : bool :=
  match s with
  | [] => starts_with old []
  | _ :: s' => starts_with old s || contains old s'
  end.

(** [s.find(old)], with [None] for Python's -1. *)
Fixpoint str_find (old s : str) : option nat :=
  match s with
  | [] => if starts_with old [] then Some 0 else None
  | _ :: s' => if starts_with old s then Some 0 else S <$> str_find old s'
  end.

(** [s[-n:]] for a positive literal [n]: the last [n] code points, or all of
    [s] when it is shorter. *)
Definition last_n (n : nat) (s : str) : str := drop (length s - n) s.

(** The left-to-right scan behind [str.replace] for a non-empty [old]:
    [skip] counts the code points of an occurrence still to be passed
    over, so occurrences are replaced without overlap. *)
Fixpoint replace_from (old new : str) (skip : nat) (s : str) : str :=
  match s with
  | [] => []
  | c :: s' =>
      match skip with
      | S k => replace_from old new k s'
      | O =>
          if starts_with old s
          then new ++ replace_from old new (length old - 1) s'
          else c :: replace_from old new 0 s'
      end
  end.

(** [s.replace(old, new)].  With an empty [old] Python inserts [new] before
    every code point and at the end. *)
Definition replace (old new s : str) : str :=
  match old with
  | [] => new ++ concat ((λ c, c :: new) <$> s)
  | _ :: _ => replace_from old new 0 s
  end.

(** The scan behind [str.split] for a non-empty separator. *)
Fixpoint split_from (sep : str) (skip : nat) (s : str) : list str :=
  match s with
  | [] => [[]]
  | c :: s' =>
      match skip with
      | S k => split_from sep k s'
      | O =>
          if starts_with sep s
          then [] :: split_from sep (length sep - 1) s'
          else match split_from sep 0 s' with
               | part :: parts => (c :: part) :: parts
               | [] => [[c]]
               end
      end
  end.

(** [s.split(sep)]; an empty separator is a [ValueError]. *)
Definition split (sep s : str) : result (list str) :=
  match sep with
  | [] => Raise ValueError
  | _ :: _ => Ok (split_from sep 0 s)
  end.

(** ** Operations on untyped values, as [mask_value] and [mask_text] apply
    them to whatever the dictionary holds *)

(** [value[-n:]] *)
Definition py_last_n (n : nat) (value : pyval) : result str :=
  match value with
  | PStr v => Ok (last_n n v)
  | _ => Raise TypeError
  end.

(** [value.split(sep)] *)
Definition py_split (value : pyval) (sep : str) : result (list str) :=
  match value with
  | PStr v => split sep v
  | _ => Raise AttributeError
  end.

(** [text.replace(old, new)] with [text] and [new] strings. *)
Definition py_replace (text : str) (old : pyval) (new : str) : result str :=
  match old with
  | PStr v => Ok (replace v new text)
  | _ => Raise TypeError
  end.

(** [parts[i]] *)
Definition py_index (parts : list str) (i : nat) : result str :=
  match parts !! i with
  | Some p => Ok p
  | None => Raise IndexError
  end.

(** ** Masking *)

Definition mask_value (value pii_type : pyval) : result str :=
  if py_eq_str pii_type (lit "AADHAAR") then
    tail ← py_last_n 4 value; Ok (lit "XXXX XXXX " ++ tail)
  else if py_eq_str pii_type (lit "PAN") then
    tail ← py_last_n 3 value; Ok (lit "XXXXX" ++ tail)
  else if py_eq_str pii_type (lit "PHONE") then
    tail ← py_last_n 4 value; Ok (lit "XXXXXX" ++ tail)
  else if py_eq_str pii_type (lit "EMAIL") then
    parts ← py_split value (lit "@");
    if length parts =? 2 then
      domain ← py_index parts 1; Ok (lit "xxxxx@" ++ domain)
    else Ok (lit "[REDACTED EMAIL]")
  else
    match pii_type with
    | PStr t =>
        if bool_decide (t = lit "NAME") || bool_decide (t = lit "ADDRESS")
        then Ok (lit "[REDACTED " ++ t ++ lit "]")
        else Ok (lit "[REDACTED]")
    | _ => Ok (lit "[REDACTED]")
    end.

(** [item.get(key, dflt)] *)
Definition get (item : dict) (key : string) (dflt : pyval) : pyval :=
  default dflt (item !! lit key).

(** The body of the loop of [mask_text]. *)
Definition mask_item (masked_text : str) (item : dict) : result str :=
  let value := get item "value" (PStr (lit "")) in
  let pii_type := get item "type" (PStr (lit "UNKNOWN")) in
  if truthy value then
    masked ← mask_value value pii_type;
    py_replace masked_text value masked
  else Ok masked_text.

(** [mask_text]: the loop over [pii_items], threading [masked_text]. *)
Fixpoint mask_text (text : str) (pii_items : list dict) : result str :=
  match pii_items with
  | [] => Ok text
  | item :: rest => masked_text ← mask_item text item; mask_text masked_text rest
  end.

(** ** Detection records *)

(** The four fields every detector writes.  The specification's source
    tags [RULE] and [ML] are the strings ["rule"] and ["ml"] of the code. *)
Record Detection := mkDetection {
  d_type : str;
  d_value : str;
  d_confidence : Q;
  d_source : str
}.

(** The dictionary literal [{"type": .., "value": .., "confidence": ..,
    "source": ..}] that the detectors append. *)
Definition to_item (d : Detection) : dict :=
  <[lit "type" := PStr (d_type d)]>
    (<[lit "value" := PStr (d_value d)]>
      (<[lit "confidence" := PFloat (d_confidence d)]>
        (<[lit "source" := PStr (d_source d)]> ∅))).

(** ** The fragment of [re] used by the pattern catalog *)

(** The character database behind [\d], [\s], [\w] and [\b] for [str]
    patterns: [Py_UNICODE_ISALPHA], [ISDECIMAL], [ISDIGIT], [ISNUMERIC] and
    [ISSPACE].  It is a table of the runtime, taken as a parameter. *)
Record UnicodeData := {
  uni_isalpha : N → bool;
  uni_isdecimal : N → bool;
  uni_isdigit : N → bool;
  uni_isnumeric : N → bool;
  uni_isspace : N → bool
}.

(** [Py_UNICODE_ISALNUM] *)
Definition uni_isalnum (ucd : UnicodeData) (c : N) : bool :=
  uni_isalpha ucd c || uni_isdecimal ucd c || uni_isdigit ucd c
  || uni_isnumeric ucd c.

(** [\d], [\s], [\w] *)
Definition re_digit (ucd : UnicodeData) (c : N) : bool := uni_isdecimal ucd c.
Definition re_space (ucd : UnicodeData) (c : N) : bool := uni_isspace ucd c.
Definition re_word (ucd : UnicodeData) (c : N) : bool :=
  uni_isalnum ucd c || (c =? 95)%N.

(** A code point range [lo-hi] of a bracket expression, and one literal. *)
Definition in_range (lo hi : string) (c : N) : bool :=
  match lit lo, lit hi with
  | [a], [b] => (a <=? c)%N && (c <=? b)%N
  | _, _ => false
  end.
Definition is_char (ch : string) (c : N) : bool :=
  match lit ch with
  | [a] => (a =? c)%N
  | _ => false
  end.

(** The database restricted to ASCII: what Unicode says of the code points
    below 128, and [false] above. *)
Definition ascii_ucd : UnicodeData := {|
  uni_isalpha c := in_range "A" "Z" c || in_range "a" "z" c;
  uni_isdecimal c := in_range "0" "9" c;
  uni_isdigit c := in_range "0" "9" c;
  uni_isnumeric c := in_range "0" "9" c;
  uni_isspace c := (9 <=? c)%N && (c <=? 13)%N || (28 <=? c)%N && (c <=? 32)%N
|}.

(** Two databases classify the code point [c] alike. *)
Definition same_class (u1 u2 : UnicodeData) (c : N) : bool :=
  eqb (uni_isalpha u1 c) (uni_isalpha u2 c)
  && eqb (uni_isdecimal u1 c) (uni_isdecimal u2 c)
  && eqb (uni_isdigit u1 c) (uni_isdigit u2 c)
  && eqb (uni_isnumeric u1 c) (uni_isnumeric u2 c)
  && eqb (uni_isspace u1 c) (uni_isspace u2 c).

(** A database that is right on ASCII, as the Unicode database is. *)
Definition agrees_on_ascii (ucd : UnicodeData) : bool :=
  forallb (same_class ucd ascii_ucd) (N.of_nat <$> seq 0 128).

(** Pattern items: the assertion [\b], and a character class under a greedy
    quantifier [{lo,hi}] ([hi = None] for an open bound). *)
Inductive item :=
  | WordBoundary
  | Repeat (cls : N → bool) (lo : nat) (hi : option nat).

(** A single class, [cls{n}] and [cls+]. *)
Definition One (cls : N → bool) : item := Repeat cls 1 (Some 1).
Definition Times (n : nat) (cls : N → bool) : item := Repeat cls n (Some n).
Definition Plus (cls : N → bool) : item := Repeat cls 1 None.
Definition AtLeast (n : nat) (cls : N → bool) : item := Repeat cls n None.

Definition can_take (hi : option nat) : bool :=
  match hi with
  | Some O => false
  | _ => true
  end.

Definition word_at (is_word : N → bool) (c : option N) : bool :=
  match c with
  | Some x => is_word x
  | None => false
  end.

(** A greedy repetition followed by the rest of the pattern [k]: take one
    more code point when the class and the upper bound allow and the rest
    then matches, otherwise stop here if the lower bound is met.  [prev] is
    the code point before the current position; the result is the number of
    code points matched from here on. *)
Fixpoint rep (cls : N → bool) (k : option N → str → option nat)
    (lo : nat) (hi : option nat) (prev : option N) (s : str) : option nat :=
  let stop := match lo with O => k prev s | S _ => None end in
  match s with
  | c :: s' =>
      if cls c && can_take hi then
        match rep cls k (pred lo) (pred <$> hi) (Some c) s' with
        | Some n => Some (S n)
        | None => stop
        end
      else stop
  | [] => stop
  end.

(** [pattern.match] at the current position: the length of the match the
    backtracking matcher finds first. *)
Fixpoint match_here (is_word : N → bool) (pat : list item)
    (prev : option N) (s : str) : option nat :=
  match pat with
  | [] => Some 0
  | WordBoundary :: r =>
      if xorb (word_at is_word prev) (word_at is_word (head s))
      then match_here is_word r prev s
      else None
  | Repeat cls lo hi :: r => rep cls (match_here is_word r) lo hi prev s
  end.

(** The [m.group()] of every match of [pattern.finditer]: try each position
    from left to right, and after a match resume behind it ([skip] code
    points of the match are still to be passed).  None of the catalog's
    patterns matches the empty string; an empty match is reported and the
    scan moves on by one. *)
Fixpoint scan (is_word : N → bool) (pat : list item) (skip : nat)
    (prev : option N) (s : str) : list str :=
  match s with
  | [] =>
      match skip, match_here is_word pat prev [] with
      | O, Some _ => [[]]
      | _, _ => []
      end
  | c :: s' =>
      match skip with
      | S k => scan is_word pat k (Some c) s'
      | O =>
          match match_here is_word pat prev s with
          | Some (S k) => take (S k) s :: scan is_word pat k (Some c) s'
          | Some O => [] :: scan is_word pat 0 (Some c) s'
          | None => scan is_word pat 0 (Some c) s'
          end
      end
  end.

(** An entity of the recognizer's document: a label and a character span.
    [ent.text] is the span's text, a slice of the document's text, which is
    the input text. *)
Record Span := mkSpan {
  label_ : str;
  start_char : nat;
  end_char : nat
}.

Definition span_text (text : str) (ent : Span) : str :=
  drop (start_char ent) (take (end_char ent) text).

Section Detectors.

Variable ucd : UnicodeData.

(** [nlp(text).ents]: the pre-trained recognizer, an external model. *)
Variable nlp : str → list Span.

(** [[a-zA-Z0-9._%+-]], [[a-zA-Z0-9.-]] and [[A-Za-z]] *)
Definition email_local (c : N) : bool :=
  in_range "a" "z" c || in_range "A" "Z" c || in_range "0" "9" c
  || is_char "." c || is_char "_" c || is_char "%" c || is_char "+" c
  || is_char "-" c.
Definition email_domain (c : N) : bool :=
  in_range "a" "z" c || in_range "A" "Z" c || in_range "0" "9" c
  || is_char "." c || is_char "-" c.
Definition letter (c : N) : bool :=
  in_range "A" "Z" c || in_range "a" "z" c.

(** [\b\d{4}\s\d{4}\s\d{4}\b] *)
Definition aadhaar_pattern : list item :=
  [WordBoundary; Times 4 (re_digit ucd); One (re_space ucd);
   Times 4 (re_digit ucd); One (re_space ucd); Times 4 (re_digit ucd);
   WordBoundary].

(** [\b[A-Z]{5}\d{4}[A-Z]\b] *)
Definition pan_pattern : list item :=
  [WordBoundary; Times 5 (in_range "A" "Z"); Times 4 (re_digit ucd);
   One (in_range "A" "Z"); WordBoundary].

(** [\b[6-9]\d{9}\b] *)
Definition phone_pattern : list item :=
  [WordBoundary; One (in_range "6" "9"); Times 9 (re_digit ucd);
   WordBoundary].

(** [\b[a-zA-Z0-9._%+-]+@[a-zA-Z0-9.-]+\.[A-Za-z]{2,}\b] *)
Definition email_pattern : list item :=
  [WordBoundary; Plus email_local; One (is_char "@"); Plus email_domain;
   One (is_char "."); AtLeast 2 letter; WordBoundary].

Definition finditer (pat : list item) (text : str) : list str :=
  scan (re_word ucd) pat 0 None text.

Definition rule_hit (pii_type : string) (confidence : Q) (group : str) : dict :=
  to_item (mkDetection (lit pii_type) group confidence (lit "rule")).

Definition detect_pii_rules (text : str) : list dict :=
  let results := [] in
  let results := results ++ (rule_hit "AADHAAR" (98 # 100) <$> finditer aadhaar_pattern text) in
  let results := results ++ (rule_hit "PAN" (97 # 100) <$> finditer pan_pattern text) in
  let results := results ++ (rule_hit "PHONE" (95 # 100) <$> finditer phone_pattern text) in
  let results := results ++ (rule_hit "EMAIL" (95 # 100) <$> finditer email_pattern text) in
  results.

(** The body of the loop over [doc.ents]: what one entity appends. *)
Definition ml_hit (text : str) (ent : Span) : list dict :=
  if bool_decide (label_ ent = lit "PERSON") then
    [to_item (mkDetection (lit "NAME") (span_text text ent) (75 # 100) (lit "ml"))]
  else if bool_decide (label_ ent = lit "GPE") || bool_decide (label_ ent = lit "LOC") then
    [to_item (mkDetection (lit "ADDRESS") (span_text text ent) (70 # 100) (lit "ml"))]
  else [].

Definition detect_pii_ml (text : str) : list dict :=
  let doc_ents := nlp text in
  concat (ml_hit text <$> doc_ents).

Definition detect_pii (text : str) : list dict :=
  let results := [] in
  let rule_hits := detect_pii_rules text in
  let results := results ++ rule_hits in
  let ml_hits := detect_pii_ml text in
  let results := results ++ ml_hits in
  results.

End Detectors.

(** The value a well-shaped item holds under ["value"]: absent, or a
    string (possibly empty). *)
Definition value_ok (it : dict) : bool :=
  match it !! lit "value" with
  | None | Some (PStr _) => true
  | Some _ => false
  end.

(** No match of [pat] that starts inside [pre] reaches beyond [pre] in
    [pre ++ rest]. *)
Fixpoint clear_run (is_word : N → bool) (pat : list item)
    (prev : option N) (pre rest : str) : bool :=
  match pre with
  | [] => true
  | c :: pre' =>
      match match_here is_word pat prev (pre ++ rest) with
      | Some n => n <=? length pre
      | None => true
      end && clear_run is_word pat (Some c) pre' rest
  end.

(** The sample document of the module's self-test. *)
Definition sample_text : str :=
  lit "
    Name: Akanksh Shetty
    Lives in Tumkur, Karnataka.
    Aadhaar: 1234 5678 9012
    PAN: ABCDE1234F
    Phone: 9876543210
    Email: akanksh@example.com
    ".

(** A recognizer that finds the person and the two places of the sample
    document, for running the engine end to end. *)
Definition sample_nlp (text : str) : list Span :=
  [mkSpan (lit "PERSON") 11 25; mkSpan (lit "GPE") 39 45;
   mkSpan (lit "GPE") 47 56].


(** The loop of [mask_text] leaves [text] alone at [it]: its value is
    falsy (absent, empty, [None], zero) or a string that does not occur in
    [text]. *)
Definition skipped_or_absent (text : str) (it : dict) : bool :=
  match get it "value" (PStr (lit "")) with
  | PStr v => bool_decide (v = []) || negb (contains v text)
  | other => negb (truthy other)
  end.

(** The code point before a position that lies behind [x], when the code
    point before [x] is [prev]. *)
Definition prev_after (prev : option N) (x : str) : option N :=
  match last x with
  | Some c => Some c
  | None => prev
  end.

(** Two pattern items that differ at most in how their classes treat code
    points outside [P]. *)
Definition item_agree (P : N → Prop) (i j : item) : Prop :=
  match i, j with
  | WordBoundary, WordBoundary => True
  | Repeat cls lo hi, Repeat cls' lo' hi' =>
      lo = lo' ∧ hi = hi' ∧ ∀ c, P c → cls c = cls' c
  | _, _ => False
  end.

(** The code point before the current position, if any, is in [P]. *)
Definition known (P : N → Prop) (prev : option N) : Prop :=
  match prev with
  | Some c => P c
  | None => True
  end.

Definition is_ascii (c : N) : bool := (c <? 128)%N.

(** The Aadhaar number of the sample document, as the rule matcher
    reports it. *)
Definition aadhaar_sample : Detection :=
  mkDetection (lit "AADHAAR") (lit "1234 5678 9012") (98 # 100) (lit "rule").

(** ** The shape of a match *)

(** The code points one pattern item consumes: none for [\b], and for a
    repetition a run of the class within the bounds. *)
Definition block_ok (it : item) (b : str) : Prop :=
  match it with
  | WordBoundary => b = []
  | Repeat cls lo hi =>
      lo ≤ length b ∧ (∀ h, hi = Some h → length b ≤ h)
      ∧ Forall (λ c, cls c = true) b
  end.

(** [v] is cut into one block per item of the pattern. *)
Definition matches_shape (pat : list item) (v : str) : Prop :=
  ∃ blocks, Forall2 block_ok pat blocks ∧ v = concat blocks.

(** ** The page loop of [read_pdf] *)

Definition newline : str := [10%N].

(** [read_pdf] on the results of [page.extract_text()] for the pages of the
    document, [None] for a page without a text layer. *)
Definition read_pdf (page_texts : list (option str)) : str :=
  fold_left
    (λ text page_text,
       match page_text with
       | Some t => if bool_decide (t = []) then text else text ++ (t ++ newline)
       | None => text
       end)
    page_texts [].

(** ** The dashboard of [app.py] *)

(** The number a value denotes, for [==] between [bool], [int] and
    [float]. *)
Definition py_num (v : pyval) : option Q :=
  match v with
  | PBool b => Some (if b then 1 else 0)%Q
  | PInt z => Some (inject_Z z)
  | PFloat q => Some q
  | _ => None
  end.

(** [x == y], which is also how a [dict] compares keys. *)
Definition py_eq (x y : pyval) : bool :=
  match x, y with
  | PNone, PNone => true
  | PStr a, PStr b => bool_decide (a = b)
  | _, _ =>
      match py_num x, py_num y with
      | Some p, Some q => Qeq_bool p q
      | _, _ => false
      end
  end.

(** The dictionary [counts], in insertion order: [counts.get(t, dflt)] and
    [counts[t] = n]. *)
Fixpoint counts_get (counts : list (pyval * nat)) (t : pyval) (dflt : nat) : nat :=
  match counts with
  | [] => dflt
  | (k, n) :: rest => if py_eq k t then n else counts_get rest t dflt
  end.

Fixpoint counts_set (counts : list (pyval * nat)) (t : pyval) (n : nat)
    : list (pyval * nat) :=
  match counts with
  | [] => [(t, n)]
  | (k, m) :: rest =>
      if py_eq k t then (k, n) :: rest else (k, m) :: counts_set rest t n
  end.

(** The detection summary: the loop that counts the records by type. *)
Definition count_step (counts : list (pyval * nat)) (it : dict) : list (pyval * nat) :=
  let t := get it "type" (PStr (lit "UNKNOWN")) in
  counts_set counts t (counts_get counts t 0 + 1).

Definition type_counts (pii_items : list dict) : list (pyval * nat) :=
  fold_left count_step pii_items [].

(** Whether a detection's checkbox starts ticked, from the sidebar switch
    and the record's confidence. *)
Definition default_checked (auto_mask_high_conf : bool) (confidence : Q) : bool :=
  let default_checked := true in
  if auto_mask_high_conf && negb (Qle_bool (90 # 100) confidence)
  then true
  else default_checked.

(** The records the user left ticked, in the order of the detections. *)
Fixpoint selected_items (pii_items : list dict) (ticked : nat → bool) (i : nat)
    : list dict :=
  match pii_items with
  | [] => []
  | it :: rest =>
      if ticked i then it :: selected_items rest ticked (S i)
      else selected_items rest ticked (S i)
  end.

(** What pressing the masking button shows. *)
Inductive shown :=
  | Warning
  | MaskedText (masked : result str).

Definition apply_masking (text : str) (selected : list dict) : shown :=
  match selected with
  | [] => Warning
  | _ :: _ => MaskedText (mask_text text selected)
  end.

(** The labels the recognizer wrapper keeps. *)
Definition kept_label (ent : Span) : bool :=
  bool_decide (label_ ent = lit "PERSON")
  || bool_decide (label_ ent = lit "GPE")
  || bool_decide (label_ ent = lit "LOC").

(** The type, confidence and source tags the two detectors write. *)
Definition tag_table : list (str * Q * str) :=
  [(lit "AADHAAR", 98 # 100, lit "rule"); (lit "PAN", 97 # 100, lit "rule");
   (lit "PHONE", 95 # 100, lit "rule"); (lit "EMAIL", 95 # 100, lit "rule");
   (lit "NAME", 75 # 100, lit "ml"); (lit "ADDRESS", 70 # 100, lit "ml")].

(** How many code points of a reported match the scan of [pre ++ rest]
    still has to pass once it has gone through [pre]: zero when it is free
    to try a match at the start of [rest]. *)
Fixpoint pending (is_word : N → bool) (pat : list item) (skip : nat)
    (prev : option N) (pre rest : str) : nat :=
  match pre with
  | [] => skip
  | c :: pre' =>
      match skip with
      | S k => pending is_word pat k (Some c) pre' rest
      | O =>
          match match_here is_word pat prev (pre ++ rest) with
          | Some (S k) => pending is_word pat k (Some c) pre' rest
          | _ => pending is_word pat 0 (Some c) pre' rest
          end
      end
  end.


(** * Properties *)

(** ** Strings *)

Lemma starts_with_app (old rest : str) : starts_with old (old ++ rest) = true.
Proof.
  induction old as [|a old IH]; simpl; [done|].
  by rewrite N.eqb_refl.
Qed.

Lemma starts_with_long (old x rest : str) :
  length old ≤ length x → starts_with old (x ++ rest) = starts_with old x.
Proof.
  revert x. induction old as [|a old IH]; intros [|c x] Hlen; simpl in *;
    try done; try lia.
  rewrite IH; [done|lia].
Qed.

Lemma starts_with_length (old s : str) :
  starts_with old s = true → length old ≤ length s.
Proof.
  revert s. induction old as [|a old IH]; intros [|c s]; simpl; try done; try lia.
  intros [_ H]%andb_prop. apply IH in H. lia.
Qed.

Lemma replace_from_absent (old new s : str) :
  contains old s = false → replace_from old new 0 s = s.
Proof.
  induction s as [|c s IH]; [done|].
  cbn [contains replace_from].
  intros [H1 H2]%orb_false_elim. rewrite H1. f_equal. by apply IH.
Qed.

Lemma replace_absent (old new s : str) :
  contains old s = false → replace old new s = s.
Proof.
  destruct old as [|a old].
  - by destruct s.
  - apply replace_from_absent.
Qed.

Lemma replace_from_skip (old new x rest : str) :
  replace_from old new (length x) (x ++ rest) = replace_from old new 0 rest.
Proof. induction x as [|c x IH]; [done|]. simpl. apply IH. Qed.

Lemma replace_from_occurrence (a : N) (old new rest : str) :
  replace_from (a :: old) new 0 ((a :: old) ++ rest)
  = new ++ replace_from (a :: old) new 0 rest.
Proof.
  cbn [replace_from app].
  change (a :: old ++ rest) with ((a :: old) ++ rest).
  rewrite starts_with_app. f_equal.
  cbn [length]. replace (S (length old) - 1) with (length old) by lia.
  apply replace_from_skip.
Qed.

Lemma replace_from_piece (a : N) (old new p rest : str) :
  str_find (a :: old) (p ++ a :: old) = Some (length p) →
  replace_from (a :: old) new 0 (p ++ (a :: old) ++ rest)
  = p ++ new ++ replace_from (a :: old) new 0 rest.
Proof.
  induction p as [|c p IH]; intros Hfind.
  - apply replace_from_occurrence.
  - cbn [app str_find length] in Hfind.
    destruct (starts_with (a :: old) (c :: p ++ a :: old)) eqn:Hsw; [done|].
    destruct (str_find (a :: old) (p ++ a :: old)) as [i|] eqn:Hf; [|done].
    simpl in Hfind. injection Hfind as ->.
    assert (starts_with (a :: old) (c :: p ++ (a :: old) ++ rest) = false)
      as Hsw'.
    { change (c :: p ++ (a :: old) ++ rest) with ((c :: p) ++ (a :: old) ++ rest).
      rewrite app_assoc, starts_with_long; [done|].
      rewrite length_app. simpl. lia. }
    change ((c :: p) ++ (a :: old) ++ rest) with (c :: (p ++ (a :: old) ++ rest)).
    cbn [replace_from]. rewrite Hsw'.
    change ((c :: p) ++ new ++ replace_from (a :: old) new 0 rest)
      with (c :: (p ++ new ++ replace_from (a :: old) new 0 rest)).
    f_equal. by apply IH.
Qed.

(** [str.replace] on a text cut at the occurrences the scan finds: every
    one of them is replaced. *)
Lemma replace_pieces (old new : str) (pieces : list str) (rest : str) :
  old ≠ [] →
  Forall (λ p, str_find old (p ++ old) = Some (length p)) pieces →
  contains old rest = false →
  replace old new (concat ((λ p, p ++ old) <$> pieces) ++ rest)
  = concat ((λ p, p ++ new) <$> pieces) ++ rest.
Proof.
  intros Hne Hp Hrest. destruct old as [|a old]; [done|]. unfold replace.
  induction Hp as [|p pieces Hfind _ IH].
  - by apply replace_from_absent.
  - rewrite !fmap_cons. cbn [concat]. rewrite <- !app_assoc.
    rewrite replace_from_piece by done. by rewrite IH.
Qed.

(** ** [split] on a one-character separator *)

Lemma split_from_char_length (a : N) (s : str) :
  length (split_from [a] 0 s) = S (length (filter (λ c, c = a) s)).
Proof.
  induction s as [|c s IH]; [done|].
  cbn [split_from starts_with length]. rewrite andb_true_r.
  replace (1 - 1) with 0 by done.
  destruct (N.eqb_spec a c) as [->|Hne].
  - rewrite filter_cons_True by done. simpl. by rewrite IH.
  - rewrite filter_cons_False by congruence.
    destruct (split_from [a] 0 s); simpl in *; [lia|done].
Qed.

Lemma split_from_char_none (a : N) (s : str) :
  contains [a] s = false → split_from [a] 0 s = [s].
Proof.
  induction s as [|c s IH]; [done|].
  cbn [contains split_from].
  intros [H1 H2]%orb_false_elim. rewrite H1, IH; done.
Qed.

Lemma split_from_char_one (a : N) (x y : str) :
  contains [a] x = false → contains [a] y = false →
  split_from [a] 0 (x ++ a :: y) = [x; y].
Proof.
  intros Hx Hy. induction x as [|c x IH].
  - simpl. rewrite N.eqb_refl. simpl. by rewrite split_from_char_none.
  - cbn [contains] in Hx. apply orb_false_elim in Hx as [H1 H2].
    cbn [app split_from].
    assert (starts_with [a] (c :: x ++ a :: y) = false) as ->.
    { simpl in *. by rewrite andb_true_r in *. }
    by rewrite IH.
Qed.

(** ** [mask_value] on strings *)

Lemma last_n_short (n : nat) (v : str) : length v < n → last_n n v = v.
Proof. intros H. unfold last_n. by replace (length v - n) with 0 by lia. Qed.

Lemma lit_neq (a b : string) : lit a ≠ lit b → bool_decide (lit a = lit b) = false.
Proof. intros H. by apply bool_decide_eq_false. Qed.

Ltac lit_cases :=
  repeat first
    [ rewrite bool_decide_eq_true_2 by reflexivity
    | rewrite lit_neq by (vm_compute; discriminate) ].

Lemma mask_value_aadhaar (v : str) :
  mask_value (PStr v) (PStr (lit "AADHAAR")) = Ok (lit "XXXX XXXX " ++ last_n 4 v).
Proof. unfold mask_value, py_eq_str. by lit_cases. Qed.

Lemma mask_value_pan (v : str) :
  mask_value (PStr v) (PStr (lit "PAN")) = Ok (lit "XXXXX" ++ last_n 3 v).
Proof. unfold mask_value, py_eq_str. by lit_cases. Qed.

Lemma mask_value_phone (v : str) :
  mask_value (PStr v) (PStr (lit "PHONE")) = Ok (lit "XXXXXX" ++ last_n 4 v).
Proof. unfold mask_value, py_eq_str. by lit_cases. Qed.

Lemma mask_value_email (v : str) :
  mask_value (PStr v) (PStr (lit "EMAIL"))
  = let parts := split_from (lit "@") 0 v in
    if length parts =? 2
    then Ok (lit "xxxxx@" ++ default [] (parts !! 1))
    else Ok (lit "[REDACTED EMAIL]").
Proof.
  unfold mask_value, py_eq_str. lit_cases.
  change (py_split (PStr v) (lit "@")) with (Ok (split_from (lit "@") 0 v)).
  cbn [mbind result_bind].
  destruct (split_from (lit "@") 0 v) as [|p0 [|p1 [|p2 parts]]]; done.
Qed.

(** A string value is always masked: no branch of [mask_value] raises. *)
Lemma mask_value_str_ok (v : str) (pii_type : pyval) :
  ∃ masked, mask_value (PStr v) pii_type = Ok masked.
Proof.
  unfold mask_value.
  destruct (py_eq_str pii_type (lit "AADHAAR")); [by eexists|].
  destruct (py_eq_str pii_type (lit "PAN")); [by eexists|].
  destruct (py_eq_str pii_type (lit "PHONE")); [by eexists|].
  destruct (py_eq_str pii_type (lit "EMAIL")).
  - change (py_split (PStr v) (lit "@")) with (Ok (split_from (lit "@") 0 v)).
    cbn [mbind result_bind].
    destruct (split_from (lit "@") 0 v) as [|p0 [|p1 [|p2 parts]]];
      by eexists.
  - destruct pii_type as [| | | |t]; try by eexists.
    destruct (bool_decide (t = lit "NAME") || bool_decide (t = lit "ADDRESS"));
      by eexists.
Qed.


(** ** The loop of [mask_text] *)

Lemma get_value_to_item (d : Detection) (dflt : pyval) :
  get (to_item d) "value" dflt = PStr (d_value d).
Proof.
  unfold get, to_item.
  rewrite lookup_insert_ne by (vm_compute; discriminate).
  by rewrite lookup_insert_eq.
Qed.

Lemma get_type_to_item (d : Detection) (dflt : pyval) :
  get (to_item d) "type" dflt = PStr (d_type d).
Proof. unfold get, to_item. by rewrite lookup_insert_eq. Qed.

Lemma truthy_str (v : str) : truthy (PStr v) = negb (bool_decide (v = [])).
Proof. done. Qed.

(** One detection record: skipped when its value is empty, otherwise one
    [replace] with the masked value. *)
Lemma mask_item_detection (text : str) (d : Detection) :
  mask_item text (to_item d)
  = if bool_decide (d_value d = []) then Ok text
    else masked ← mask_value (PStr (d_value d)) (PStr (d_type d));
         Ok (replace (d_value d) masked text).
Proof.
  unfold mask_item. rewrite get_value_to_item, get_type_to_item, truthy_str.
  by destruct (bool_decide (d_value d = [])).
Qed.

Lemma mask_item_skipped (text : str) (it : dict) :
  skipped_or_absent text it = true → mask_item text it = Ok text.
Proof.
  unfold skipped_or_absent, mask_item.
  destruct (get it "value" (PStr (lit ""))) as [| b | z | q | v] eqn:Hv;
    cbn [truthy]; try (intros ->%negb_true_iff; done); try done.
  destruct (bool_decide (v = [])) eqn:Hempty; [done|].
  cbn [orb negb]. intros Habs%negb_true_iff.
  destruct (mask_value_str_ok v (get it "type" (PStr (lit "UNKNOWN"))))
    as [masked ->].
  cbn [mbind result_bind py_replace]. by rewrite replace_absent.
Qed.

Lemma mask_item_value_ok (text : str) (it : dict) :
  value_ok it = true → ∃ out, mask_item text it = Ok out.
Proof.
  unfold value_ok, mask_item, get.
  change (lit "value") with (lit "value"%string).
  destruct (it !! lit "value") as [[| b | z | q | v]|]; try done; intros _.
  - cbn [from_option id]. destruct (truthy (PStr v)); [|by eexists].
    destruct (mask_value_str_ok v (default (PStr (lit "UNKNOWN")) (it !! lit "type")))
      as [masked ->].
    by eexists.
  - by eexists.
Qed.

Lemma mask_text_app (text : str) (items1 items2 : list dict) :
  mask_text text (items1 ++ items2)
  = masked_text ← mask_text text items1; mask_text masked_text items2.
Proof.
  revert text. induction items1 as [|it items1 IH]; intros text; [done|].
  cbn [app mask_text]. destruct (mask_item text it) as [t|e]; [|done].
  cbn [mbind result_bind]. apply IH.
Qed.

(** Every text is cut by the occurrences of [old] that the scan of
    [str.replace] finds, from left to right and without overlap. *)
Lemma starts_with_split (old s : str) :
  starts_with old s = true → s = old ++ drop (length old) s.
Proof.
  revert s. induction old as [|a old IH]; intros [|c s]; simpl; try done.
  intros [->%N.eqb_eq H]%andb_prop. f_equal. by apply IH.
Qed.

Lemma first_occurrence (old s : str) :
  old ≠ [] → contains old s = true →
  ∃ p s', s = p ++ old ++ s' ∧ str_find old (p ++ old) = Some (length p).
Proof.
  intros Hne. induction s as [|c s IH]; cbn [contains].
  - by destruct old.
  - destruct (starts_with old (c :: s)) eqn:Hsw.
    + intros _. exists [], (drop (length old) (c :: s)). split.
      * by apply starts_with_split.
      * destruct old as [|a old]; [done|]. cbn [app str_find].
        pose proof (starts_with_app (a :: old) []) as H.
        rewrite app_nil_r in H. by rewrite H.
    + cbn [orb]. intros (p & s' & -> & Hfind)%IH.
      exists (c :: p), s'. split; [done|].
      cbn [app str_find length].
      assert (starts_with old (c :: p ++ old) = false) as ->.
      { rewrite <- Hsw.
        change (c :: p ++ old ++ s') with ((c :: p) ++ old ++ s').
        rewrite app_assoc, starts_with_long; [done|].
        rewrite length_app. simpl. lia. }
      by rewrite Hfind.
Qed.

Lemma cut_at_occurrences (old : str) (n : nat) (s : str) :
  old ≠ [] → length s ≤ n →
  ∃ pieces rest,
    s = concat ((λ p, p ++ old) <$> pieces) ++ rest
    ∧ Forall (λ p, str_find old (p ++ old) = Some (length p)) pieces
    ∧ contains old rest = false.
Proof.
  intros Hne. revert s. induction n as [|n IH]; intros s Hlen.
  - destruct s; [|simpl in Hlen; lia].
    exists [], []. split_and!; [done|constructor|by destruct old].
  - destruct (contains old s) eqn:Hc.
    + apply first_occurrence in Hc as (p & s' & -> & Hfind); [|done].
      destruct (IH s') as (pieces & rest & -> & Hp & Hrest).
      { rewrite !length_app in Hlen. destruct old; [done|].
        simpl in Hlen. lia. }
      exists (p :: pieces), rest. split_and!; [|by constructor|done].
      rewrite fmap_cons. cbn [concat]. by rewrite <- !app_assoc.
    + exists [], s. split_and!; [done|constructor|done].
Qed.

(** ** The claims about masking *)

(** C6: masking with an empty selection returns the text itself, and
    returns it normally. *)
Theorem mask_text_empty_selection (text : str) : mask_text text [] = Ok text.
Proof. reflexivity. Qed.

(** C9: on a value shorter than the suffix that a type keeps, the suffix
    slice is the whole value, so the mask shows the value in full:
    ["XXXX XXXX " + value] for AADHAAR and ["XXXXXX" + value] for PHONE
    below four characters, ["XXXXX" + value] for PAN below three. *)
Theorem mask_value_short_value (value : str) :
  (length value < 4 →
     mask_value (PStr value) (PStr (lit "AADHAAR")) = Ok (lit "XXXX XXXX " ++ value)
     ∧ mask_value (PStr value) (PStr (lit "PHONE")) = Ok (lit "XXXXXX" ++ value))
  ∧ (length value < 3 →
     mask_value (PStr value) (PStr (lit "PAN")) = Ok (lit "XXXXX" ++ value)).
Proof.
  split.
  - intros H. rewrite mask_value_aadhaar, mask_value_phone.
    by rewrite last_n_short.
  - intros H. rewrite mask_value_pan. by rewrite last_n_short.
Qed.

Lemma mask_value_short_value_witness :
  (mask_value (PStr (lit "12")) (PStr (lit "AADHAAR")) = Ok (lit "XXXX XXXX 12")
   ∧ mask_value (PStr (lit "12")) (PStr (lit "PHONE")) = Ok (lit "XXXXXX12"))
  ∧ mask_value (PStr (lit "12")) (PStr (lit "PAN")) = Ok (lit "XXXXX12").
Proof.
  split.
  - apply (proj1 (mask_value_short_value (lit "12"))). vm_compute. lia.
  - apply (proj2 (mask_value_short_value (lit "12"))). vm_compute. lia.
Defined.

(** C5: for EMAIL, [mask_value] splits the value on ["@"], which gives one
    part more than the value has ["@"] signs; with exactly two parts the
    result is ["xxxxx@"] followed by the second part, otherwise it is
    ["[REDACTED EMAIL]"].  So for a value [local @ domain] with no further
    ["@"] the result is ["xxxxx"] followed by ["@"] and the domain. *)
Theorem mask_value_email_spec (value : str) :
  let parts := split_from (lit "@") 0 value in
  length parts = S (length (filter (λ c, c = 64%N) value))
  ∧ mask_value (PStr value) (PStr (lit "EMAIL"))
    = (if length parts =? 2
       then Ok (lit "xxxxx@" ++ default [] (parts !! 1))
       else Ok (lit "[REDACTED EMAIL]"))
  ∧ ∀ local domain,
      value = local ++ lit "@" ++ domain →
      contains (lit "@") local = false →
      contains (lit "@") domain = false →
      mask_value (PStr value) (PStr (lit "EMAIL"))
      = Ok (lit "xxxxx" ++ lit "@" ++ domain).
Proof.
  split_and!.
  - apply split_from_char_length.
  - apply mask_value_email.
  - intros local domain -> Hl Hd. rewrite mask_value_email.
    change (lit "@" ++ domain) with (64%N :: domain).
    change (lit "@") with [64%N] in *.
    by rewrite split_from_char_one.
Qed.

Lemma mask_value_email_spec_witness :
  mask_value (PStr (lit "akanksh@example.com")) (PStr (lit "EMAIL"))
  = Ok (lit "xxxxx" ++ lit "@" ++ lit "example.com").
Proof.
  apply (proj2 (proj2 (mask_value_email_spec (lit "akanksh@example.com")))
           (lit "akanksh") (lit "example.com")); reflexivity.
Defined.

(** C10: when every selected record is skipped (its value is absent or
    empty) or has a value that does not occur in the text, [mask_text]
    returns the text unchanged. *)
Theorem mask_text_absent_values (text : str) (items : list dict) :
  forallb (skipped_or_absent text) items = true →
  mask_text text items = Ok text.
Proof.
  induction items as [|it items IH]; [done|].
  cbn [forallb mask_text]. intros [H1 H2]%andb_prop.
  rewrite mask_item_skipped by done. cbn [mbind result_bind]. by apply IH.
Qed.

Lemma mask_text_absent_values_witness :
  mask_text (lit "Phone: 9876543210")
    [to_item (mkDetection (lit "PAN") (lit "ABCDE1234F") (97 # 100) (lit "rule"));
     <[lit "type" := PStr (lit "NAME")]> ∅;
     to_item (mkDetection (lit "EMAIL") (lit "") (95 # 100) (lit "rule"))]
  = Ok (lit "Phone: 9876543210").
Proof. apply mask_text_absent_values. vm_compute. reflexivity. Defined.

(** C2, as the code has it: a duplicated detection is a no-op the second
    time whenever its value is empty or no longer occurs in the text that
    the first pass produced. *)
Theorem mask_text_duplicate_noop (text : str) (d : Detection) (once : str) :
  mask_text text [to_item d] = Ok once →
  d_value d = [] ∨ contains (d_value d) once = false →
  mask_text text [to_item d; to_item d] = Ok once.
Proof.
  cbn [mask_text]. intros H1 Habs.
  destruct (mask_item text (to_item d)) as [t|e]; [|done].
  cbn [mbind result_bind] in *. injection H1 as ->.
  rewrite mask_item_skipped; [done|].
  unfold skipped_or_absent. rewrite get_value_to_item.
  destruct Habs as [-> | ->]; [done|]. apply orb_true_r.
Qed.

Lemma mask_text_duplicate_noop_witness :
  let d := mkDetection (lit "AADHAAR") (lit "1234 5678 9012") (98 # 100) (lit "rule") in
  mask_text (lit "id 1234 5678 9012, again 1234 5678 9012") [to_item d; to_item d]
  = Ok (lit "id XXXX XXXX 9012, again XXXX XXXX 9012").
Proof.
  intros d. apply mask_text_duplicate_noop.
  - vm_compute. reflexivity.
  - right. vm_compute. reflexivity.
Defined.

(** C2 as stated fails: the Aadhaar value ["1234 1234 1234"], which the
    rule matcher detects in ["1234 1234 1234 1234 1234"], occurs again in
    the text after the first pass, at the kept suffix of the mask, and the
    second pass masks it once more. *)
Lemma mask_text_duplicate_counterexample :
  let d := mkDetection (lit "AADHAAR") (lit "1234 1234 1234") (98 # 100) (lit "rule") in
  let text := lit "1234 1234 1234 1234 1234" in
  detect_pii_rules ascii_ucd text = [to_item d]
  ∧ mask_text text [to_item d] = Ok (lit "XXXX XXXX 1234 1234 1234")
  ∧ mask_text text [to_item d; to_item d] = Ok (lit "XXXX XXXX XXXX XXXX 1234")
  ∧ mask_text text [to_item d; to_item d] ≠ mask_text text [to_item d].
Proof.
  intros d text. split_and!.
  - vm_compute. reflexivity.
  - vm_compute. reflexivity.
  - vm_compute. reflexivity.
  - vm_compute. discriminate.
Qed.

(** C3, as the code has it: [mask_text] works through the selection in the
    order given, each record on the text the records before it produced; a
    record with a non-empty value replaces, by [mask_value] of the value and
    the type, every occurrence of the value that the left-to-right scan of
    the current text finds, all of them and not just the first, where each
    search resumes behind the occurrence replaced last, so that an
    occurrence overlapping a replaced one is not replaced on its own; and
    every text is cut by the occurrences the scan finds. *)
Theorem mask_text_sequential_replace_all :
  (∀ text items1 items2,
     mask_text text (items1 ++ items2)
     = masked_text ← mask_text text items1; mask_text masked_text items2)
  ∧ (∀ (d : Detection) (masked : str) (pieces : list str) (rest : str)
       (items : list dict),
       d_value d ≠ [] →
       mask_value (PStr (d_value d)) (PStr (d_type d)) = Ok masked →
       Forall (λ p, str_find (d_value d) (p ++ d_value d) = Some (length p)) pieces →
       contains (d_value d) rest = false →
       mask_text (concat ((λ p, p ++ d_value d) <$> pieces) ++ rest) (to_item d :: items)
       = mask_text (concat ((λ p, p ++ masked) <$> pieces) ++ rest) items)
  ∧ (∀ (d : Detection) (text : str),
       d_value d ≠ [] →
       ∃ pieces rest,
         text = concat ((λ p, p ++ d_value d) <$> pieces) ++ rest
         ∧ Forall (λ p, str_find (d_value d) (p ++ d_value d) = Some (length p)) pieces
         ∧ contains (d_value d) rest = false).
Proof.
  split_and!.
  - apply mask_text_app.
  - intros d masked pieces rest items Hne Hmask Hp Hrest.
    cbn [mask_text]. rewrite mask_item_detection.
    rewrite bool_decide_eq_false_2 by done. rewrite Hmask.
    cbn [mbind result_bind]. by rewrite replace_pieces.
  - intros d text Hne. by apply (cut_at_occurrences _ (length text)).
Qed.

Lemma mask_text_sequential_replace_all_witness :
  let d := mkDetection (lit "AADHAAR") (lit "1234 5678 9012") (98 # 100) (lit "rule") in
  let e := mkDetection (lit "PHONE") (lit "9876543210") (95 # 100) (lit "rule") in
  mask_text (lit "a: 1234 5678 9012, b: 1234 5678 9012, p: 9876543210")
    [to_item d; to_item e]
  = mask_text (lit "a: XXXX XXXX 9012, b: XXXX XXXX 9012, p: 9876543210")
      [to_item e].
Proof.
  intros d e.
  apply (proj1 (proj2 mask_text_sequential_replace_all) d (lit "XXXX XXXX 9012")
           [lit "a: "; lit ", b: "] (lit ", p: 9876543210") [to_item e]).
  - vm_compute. discriminate.
  - vm_compute. reflexivity.
  - repeat constructor.
  - vm_compute. reflexivity.
Defined.

(** ** The matcher *)

Lemma prev_after_cons (prev : option N) (c : N) (x : str) :
  prev_after prev (c :: x) = prev_after (Some c) x.
Proof. unfold prev_after. rewrite last_cons. by destruct (last x). Qed.

(** A class repeated exactly [n] times over [n] code points of the class. *)
Lemma rep_exact (cls : N → bool) (k : option N → str → option nat)
    (n : nat) (x : str) (prev : option N) (s : str) :
  length x = n →
  Forall (λ c, cls c = true) x →
  rep cls k n (Some n) prev (x ++ s)
  = (λ m, n + m) <$> k (prev_after prev x) s.
Proof.
  intros <- Hx. revert prev. induction Hx as [|c x Hc _ IH]; intros prev.
  - cbn [app length prev_after last]. destruct s as [|c s]; cbn [rep].
    + by destruct (k prev []).
    + rewrite andb_false_r. by destruct (k prev (c :: s)).
  - cbn [app length rep can_take fmap option_fmap option_map pred].
    rewrite Hc. cbn [andb]. rewrite IH, prev_after_cons.
    by destruct (k (prev_after (Some c) x) s).
Qed.

Lemma re_digit_word (ucd : UnicodeData) (c : N) :
  re_digit ucd c = true → re_word ucd c = true.
Proof.
  unfold re_digit, re_word, uni_isalnum. intros ->.
  by rewrite orb_true_r.
Qed.

Lemma block_ends (x : str) (n : nat) :
  length x = S n → ∃ a b, head x = Some a ∧ last x = Some b ∧ a ∈ x ∧ b ∈ x.
Proof.
  intros Hlen. destruct x as [|a x]; [done|].
  destruct (last (a :: x)) as [b|] eqn:Hb.
  - exists a, b. split_and!; [done|done|set_solver|].
    apply last_Some in Hb as [l' ->]. set_solver.
  - by apply last_None in Hb.
Qed.

(** An Aadhaar-shaped run between two word boundaries is matched in full:
    three blocks of four decimal digits with one white-space code point
    between them, fourteen code points. *)
Lemma aadhaar_match_here (ucd : UnicodeData) (prev : option N)
    (b1 b2 b3 : str) (sp1 sp2 : N) (post : str) :
  length b1 = 4 → length b2 = 4 → length b3 = 4 →
  Forall (λ c, re_digit ucd c = true) b1 →
  Forall (λ c, re_digit ucd c = true) b2 →
  Forall (λ c, re_digit ucd c = true) b3 →
  re_space ucd sp1 = true → re_space ucd sp2 = true →
  word_at (re_word ucd) prev = false →
  word_at (re_word ucd) (head post) = false →
  match_here (re_word ucd) (aadhaar_pattern ucd) prev
    (b1 ++ [sp1] ++ b2 ++ [sp2] ++ b3 ++ post) = Some 14.
Proof.
  intros L1 L2 L3 D1 D2 D3 S1 S2 Hprev Hpost.
  destruct (block_ends b1 3 L1) as (a1 & z1 & Ha1 & Hz1 & Hin1 & _).
  destruct (block_ends b3 3 L3) as (a3 & z3 & _ & Hz3 & _ & Hin3).
  unfold aadhaar_pattern, Times, One. cbn [match_here].
  assert (head (b1 ++ [sp1] ++ b2 ++ [sp2] ++ b3 ++ post) = Some a1) as ->.
  { destruct b1; [done|]. simpl in *. congruence. }
  cbn [word_at]. rewrite Hprev.
  rewrite (re_digit_word ucd a1) by (by eapply (proj1 (Forall_forall _ _) D1)).
  cbn [xorb].
  rewrite (rep_exact _ _ 4 b1) by done.
  rewrite (rep_exact _ _ 1 [sp1]) by (done || by repeat constructor).
  rewrite (rep_exact _ _ 4 b2) by done.
  rewrite (rep_exact _ _ 1 [sp2]) by (done || by repeat constructor).
  rewrite (rep_exact _ _ 4 b3) by done.
  unfold prev_after at 1. rewrite Hz3. cbn [word_at].
  rewrite (re_digit_word ucd z3) by (by eapply (proj1 (Forall_forall _ _) D3)).
  rewrite Hpost. reflexivity.
Qed.

(** ** The scan *)

(** What [finditer] reports is cut out of the text. *)
Lemma scan_substring (is_word : N → bool) (pat : list item) (s : str) :
  ∀ skip prev v, v ∈ scan is_word pat skip prev s → ∃ a b, s = a ++ v ++ b.
Proof.
  induction s as [|c s IH]; intros skip prev v.
  - cbn [scan]. destruct skip, (match_here is_word pat prev []);
      intros Hin; try by apply elem_of_nil in Hin.
    apply list_elem_of_singleton in Hin as ->. by exists [], [].
  - assert (∀ k p, v ∈ scan is_word pat k p s → ∃ a b, c :: s = a ++ v ++ b)
      as Hrest.
    { intros k p (a & b & ->)%IH. by exists (c :: a), b. }
    cbn [scan]. destruct skip as [|skip]; [|apply Hrest].
    destruct (match_here is_word pat prev (c :: s)) as [[|n]|]; [| |apply Hrest].
    + intros [->|Hin]%elem_of_cons; [by exists [], (c :: s)|by eapply Hrest].
    + intros [->|Hin]%elem_of_cons; [|by eapply Hrest].
      exists [], (drop (S n) (c :: s)). by rewrite app_nil_l, take_drop.
Qed.

(** The scan arrives with nothing pending behind a prefix in which no
    match reaches beyond the prefix. *)
Lemma scan_reaches (is_word : N → bool) (pat : list item) (pre rest : str) :
  ∀ skip prev,
    clear_run is_word pat prev pre rest = true →
    skip ≤ length pre →
    ∃ found, scan is_word pat skip prev (pre ++ rest)
             = found ++ scan is_word pat 0 (prev_after prev pre) rest.
Proof.
  induction pre as [|c pre IH]; intros skip prev Hclear Hskip.
  - simpl in Hskip. replace skip with 0 by lia. by exists [].
  - cbn [clear_run] in Hclear. apply andb_prop in Hclear as [Hhere Hclear].
    rewrite prev_after_cons. cbn [app scan]. cbn [app] in Hhere.
    destruct skip as [|skip].
    + destruct (match_here is_word pat prev (c :: pre ++ rest)) as [[|n]|].
      * destruct (IH 0 (Some c) Hclear) as [found ->]; [lia|].
        by exists ([] :: found).
      * apply Nat.leb_le in Hhere. cbn [length] in Hhere.
        destruct (IH n (Some c) Hclear) as [found ->]; [lia|].
        by eexists (_ :: found).
      * destruct (IH 0 (Some c) Hclear) as [found ->]; [lia|]. by exists found.
    + cbn [length] in Hskip.
      destruct (IH skip (Some c) Hclear) as [found ->]; [lia|]. by exists found.
Qed.

(** A non-empty match at a position the scan arrives at is reported. *)
Lemma scan_reports (is_word : N → bool) (pat : list item)
    (prev : option N) (s : str) (n : nat) :
  match_here is_word pat prev s = Some (S n) →
  take (S n) s ∈ scan is_word pat 0 prev s.
Proof.
  destruct s as [|c s]; cbn [scan]; intros ->; [|by left].
  rewrite take_nil. by left.
Qed.

(** ** The matcher looks only at the code points of the text *)

Section Agreement.

Variable P : N → Prop.
Variables is_word is_word' : N → bool.
Hypothesis word_agree : ∀ c, P c → is_word c = is_word' c.

Lemma word_at_agree (prev : option N) :
  known P prev → word_at is_word prev = word_at is_word' prev.
Proof. destruct prev; [apply word_agree|done]. Qed.

Lemma rep_agree (cls cls' : N → bool) (k k' : option N → str → option nat)
    (s : str) :
  (∀ c, P c → cls c = cls' c) →
  (∀ prev s', known P prev → Forall P s' → k prev s' = k' prev s') →
  Forall P s →
  ∀ lo hi prev, known P prev → rep cls k lo hi prev s = rep cls' k' lo hi prev s.
Proof.
  intros Hcls Hk Hs. induction Hs as [|c s Hc Hs IH]; intros lo hi prev Hprev.
  - cbn [rep]. destruct lo; [|done]. by apply Hk.
  - cbn [rep]. rewrite <- (Hcls c Hc), <- (IH _ _ (Some c) Hc).
    rewrite <- (Hk prev (c :: s)) by (done || by constructor). done.
Qed.

Lemma match_here_agree (pat pat' : list item) :
  Forall2 (item_agree P) pat pat' →
  ∀ prev s, known P prev → Forall P s →
    match_here is_word pat prev s = match_here is_word' pat' prev s.
Proof.
  induction 1 as [|i j pat pat' Hij _ IH]; intros prev s Hprev Hs; [done|].
  destruct i as [|cls lo hi], j as [|cls' lo' hi']; try done; cbn [match_here].
  - assert (known P (head s)) as Hhead by (by destruct Hs).
    by rewrite (word_at_agree prev Hprev), (word_at_agree (head s) Hhead), IH.
  - destruct Hij as (<- & <- & Hcls). by apply rep_agree.
Qed.

Lemma scan_agree (pat pat' : list item) (s : str) :
  Forall2 (item_agree P) pat pat' →
  Forall P s →
  ∀ skip prev, known P prev →
    scan is_word pat skip prev s = scan is_word' pat' skip prev s.
Proof.
  intros Hpat Hs. induction Hs as [|c s Hc Hs IH]; intros skip prev Hprev.
  - cbn [scan]. by rewrite (match_here_agree pat pat').
  - assert (∀ k, scan is_word pat k (Some c) s = scan is_word' pat' k (Some c) s)
      as Hrest by (intros k; by apply IH).
    cbn [scan]. rewrite (match_here_agree pat pat') by (done || by constructor).
    destruct skip; [|apply Hrest].
    destruct (match_here is_word' pat' prev (c :: s)) as [[|n]|];
      by rewrite Hrest.
Qed.

End Agreement.

Lemma same_class_spec (u1 u2 : UnicodeData) (c : N) :
  same_class u1 u2 c = true →
  re_digit u1 c = re_digit u2 c ∧ re_space u1 c = re_space u2 c
  ∧ re_word u1 c = re_word u2 c.
Proof.
  unfold same_class, re_digit, re_space, re_word, uni_isalnum.
  intros [[[[H1%eqb_prop H2%eqb_prop]%andb_prop H3%eqb_prop]%andb_prop
            H4%eqb_prop]%andb_prop H5%eqb_prop]%andb_prop.
  by rewrite H1, H2, H3, H4, H5.
Qed.

(** The rule matcher gives the same detections under two databases that
    classify the code points of the text alike. *)
Lemma detect_pii_rules_agree (u1 u2 : UnicodeData) (text : str) :
  Forall (λ c, same_class u1 u2 c = true) text →
  detect_pii_rules u1 text = detect_pii_rules u2 text.
Proof.
  intros Htext. unfold detect_pii_rules, finditer.
  assert (∀ p1 p2,
    Forall2 (item_agree (λ c, same_class u1 u2 c = true)) p1 p2 →
    scan (re_word u1) p1 0 None text = scan (re_word u2) p2 0 None text) as Hscan.
  { intros p1 p2 Hp.
    apply (scan_agree (λ c, same_class u1 u2 c = true)); try done.
    intros c Hc. by apply same_class_spec in Hc as (_ & _ & ?). }
  assert (∀ c, same_class u1 u2 c = true → re_digit u1 c = re_digit u2 c) as Hd.
  { intros c Hc. by apply same_class_spec in Hc as (? & _ & _). }
  assert (∀ c, same_class u1 u2 c = true → re_space u1 c = re_space u2 c) as Hs.
  { intros c Hc. by apply same_class_spec in Hc as (_ & ? & _). }
  rewrite (Hscan (aadhaar_pattern u1) (aadhaar_pattern u2)),
    (Hscan (pan_pattern u1) (pan_pattern u2)),
    (Hscan (phone_pattern u1) (phone_pattern u2)),
    (Hscan email_pattern email_pattern); [done|..];
    unfold aadhaar_pattern, pan_pattern, phone_pattern, email_pattern,
      Times, One, Plus, AtLeast;
    repeat (constructor; [simpl; by auto|]); constructor.
Qed.

Lemma agrees_on_ascii_spec (ucd : UnicodeData) (c : N) :
  agrees_on_ascii ucd = true → is_ascii c = true →
  same_class ucd ascii_ucd c = true.
Proof.
  unfold agrees_on_ascii, is_ascii. intros Hall Hc%N.ltb_lt.
  apply (proj1 (forallb_forall _ _) Hall).
  apply list_elem_of_In, list_elem_of_fmap. exists (N.to_nat c).
  split; [by rewrite N2Nat.id|]. apply elem_of_seq. lia.
Qed.

(** On an ASCII text the rule matcher is computed with the ASCII table. *)
Lemma detect_pii_rules_ascii (ucd : UnicodeData) (text : str) :
  agrees_on_ascii ucd = true → forallb is_ascii text = true →
  detect_pii_rules ucd text = detect_pii_rules ascii_ucd text.
Proof.
  intros Hucd Htext. apply detect_pii_rules_agree.
  apply Forall_forall. intros c Hc. apply agrees_on_ascii_spec; [done|].
  apply (proj1 (forallb_forall _ _) Htext). by apply list_elem_of_In.
Qed.

(** ** What the detectors append *)

Lemma lookup_value_to_item (d : Detection) :
  to_item d !! lit "value" = Some (PStr (d_value d)).
Proof.
  unfold to_item. rewrite lookup_insert_ne by (vm_compute; discriminate).
  by rewrite lookup_insert_eq.
Qed.

Lemma lookup_type_to_item (d : Detection) :
  to_item d !! lit "type" = Some (PStr (d_type d)).
Proof. unfold to_item. by rewrite lookup_insert_eq. Qed.

Lemma detect_pii_rules_spec (ucd : UnicodeData) (text : str) (it : dict) :
  it ∈ detect_pii_rules ucd text →
  ∃ d a b, it = to_item d ∧ text = a ++ d_value d ++ b.
Proof.
  unfold detect_pii_rules, finditer, rule_hit. rewrite app_nil_l.
  rewrite !elem_of_app, !list_elem_of_fmap.
  intros [[[(v & -> & Hv)|(v & -> & Hv)]|(v & -> & Hv)]|(v & -> & Hv)];
    apply scan_substring in Hv as (a & b & ->); by eexists _, a, b.
Qed.

Lemma span_text_substring (text : str) (ent : Span) :
  ∃ a b, text = a ++ span_text text ent ++ b.
Proof.
  exists (take (start_char ent) (take (end_char ent) text)),
    (drop (end_char ent) text).
  unfold span_text. by rewrite app_assoc, !take_drop.
Qed.

Lemma detect_pii_ml_spec (nlp : str → list Span) (text : str) (it : dict) :
  it ∈ detect_pii_ml nlp text →
  ∃ d a b, it = to_item d ∧ text = a ++ d_value d ++ b
           ∧ (d_type d = lit "NAME" ∨ d_type d = lit "ADDRESS").
Proof.
  unfold detect_pii_ml. intros Hin%list_elem_of_In%in_concat.
  destruct Hin as (hits & Hhits%list_elem_of_In & Hin%list_elem_of_In).
  apply list_elem_of_fmap in Hhits as (ent & -> & _).
  destruct (span_text_substring text ent) as (a & b & Htext).
  unfold ml_hit in Hin.
  destruct (bool_decide (label_ ent = lit "PERSON")).
  { apply list_elem_of_singleton in Hin as ->. eexists _, a, b. by eauto. }
  destruct (bool_decide (label_ ent = lit "GPE") || bool_decide (label_ ent = lit "LOC")).
  { apply list_elem_of_singleton in Hin as ->. eexists _, a, b. by eauto. }
  by apply elem_of_nil in Hin.
Qed.

Lemma detect_pii_unfold (ucd : UnicodeData) (nlp : str → list Span) (text : str) :
  detect_pii ucd nlp text = detect_pii_rules ucd text ++ detect_pii_ml nlp text.
Proof. reflexivity. Qed.

(** ** The claims about detection *)

(** C4: the detections of [detect_pii] are those of the rule matcher
    followed by those of the recognizer, all of them and in their order:
    nothing is dropped, merged or moved. *)
Theorem detect_pii_concatenation (ucd : UnicodeData) (nlp : str → list Span)
    (text : str) :
  detect_pii ucd nlp text = detect_pii_rules ucd text ++ detect_pii_ml nlp text
  ∧ length (detect_pii ucd nlp text)
    = length (detect_pii_rules ucd text) + length (detect_pii_ml nlp text).
Proof.
  split; [reflexivity|]. rewrite detect_pii_unfold. apply length_app.
Qed.

(** C7: every record that [detect_pii] returns holds under ["value"] a
    string that occurs in the text: a match of a pattern for the rule
    matcher, the text of an entity span for the recognizer. *)
Theorem detect_pii_value_occurs (ucd : UnicodeData) (nlp : str → list Span)
    (text : str) (it : dict) :
  it ∈ detect_pii ucd nlp text →
  ∃ v, it !! lit "value" = Some (PStr v) ∧ ∃ a b, text = a ++ v ++ b.
Proof.
  rewrite detect_pii_unfold, elem_of_app.
  intros [(d & a & b & -> & Htext)%detect_pii_rules_spec
         |(d & a & b & -> & Htext & _)%detect_pii_ml_spec];
    exists (d_value d); (split; [apply lookup_value_to_item|by exists a, b]).
Qed.

Lemma detect_pii_value_occurs_witness :
  ∃ v, to_item aadhaar_sample !! lit "value" = Some (PStr v)
       ∧ ∃ a b, sample_text = a ++ v ++ b.
Proof.
  apply (detect_pii_value_occurs ascii_ucd (λ _, [])).
  vm_compute. left.
Defined.

Lemma ascii_digit (ucd : UnicodeData) (c : N) :
  agrees_on_ascii ucd = true → in_range "0" "9" c = true →
  re_digit ucd c = true.
Proof.
  intros Hucd Hc.
  destruct (same_class_spec ucd ascii_ucd c) as (-> & _ & _); [|done].
  apply agrees_on_ascii_spec; [done|].
  unfold in_range, is_ascii in *. simpl in Hc.
  apply andb_prop in Hc as [_ Hc%N.leb_le]. apply N.ltb_lt. lia.
Qed.

(** C1 as stated fails in two ways.  In ["11234 5678 9012"] the literal
    follows a digit, so there is no word boundary before it and nothing is
    detected.  In ["0000 1234 5678 9012"] the scan reports the earlier
    match ["0000 1234 5678"] and resumes behind it, inside the literal.
    Neither depends on the recognizer, nor on the character database beyond
    ASCII. *)
Lemma detect_pii_aadhaar_counterexample :
  (contains (lit "1234 5678 9012") (lit "11234 5678 9012") = true
   ∧ ∀ ucd nlp, agrees_on_ascii ucd = true →
       to_item aadhaar_sample ∉ detect_pii ucd nlp (lit "11234 5678 9012"))
  ∧ (contains (lit "1234 5678 9012") (lit "0000 1234 5678 9012") = true
     ∧ ∀ ucd nlp, agrees_on_ascii ucd = true →
         to_item aadhaar_sample ∉ detect_pii ucd nlp (lit "0000 1234 5678 9012")).
Proof.
  assert (∀ nlp text, to_item aadhaar_sample ∉ detect_pii_ml nlp text) as Hml.
  { intros nlp text (d & _ & _ & Heq & _ & Hty)%detect_pii_ml_spec.
    apply (f_equal (λ it : dict, it !! lit "type")) in Heq.
    rewrite !lookup_type_to_item in Heq.
    destruct Hty as [Hty|Hty]; rewrite Hty in Heq; vm_compute in Heq;
      discriminate. }
  split; (split; [vm_compute; reflexivity|]); intros ucd nlp Hucd;
    rewrite detect_pii_unfold, not_elem_of_app; (split; [|apply Hml]);
    rewrite detect_pii_rules_ascii by (done || (vm_compute; reflexivity)).
  - vm_compute. apply not_elem_of_nil.
  - assert (detect_pii_rules ascii_ucd (lit "0000 1234 5678 9012")
            = [rule_hit "AADHAAR" (98 # 100) (lit "0000 1234 5678")]) as ->
      by (vm_compute; reflexivity).
    intros Heq%list_elem_of_singleton.
    apply (f_equal (λ it : dict, it !! lit "value")) in Heq.
    unfold rule_hit in Heq. rewrite !lookup_value_to_item in Heq.
    vm_compute in Heq. discriminate Heq.
Qed.

(** ** No exception for the shape of the records *)

Lemma mask_text_value_ok (items : list dict) :
  ∀ text, forallb value_ok items = true → ∃ out, mask_text text items = Ok out.
Proof.
  induction items as [|it items IH]; intros text; [by eexists|].
  cbn [forallb mask_text]. intros [Hit Hitems]%andb_prop.
  destruct (mask_item_value_ok text it Hit) as [t ->].
  cbn [mbind result_bind]. by apply IH.
Qed.

Lemma detect_pii_value_ok (ucd : UnicodeData) (nlp : str → list Span) (text : str) :
  forallb value_ok (detect_pii ucd nlp text) = true.
Proof.
  apply forallb_forall. intros it Hin%list_elem_of_In.
  rewrite detect_pii_unfold, elem_of_app in Hin.
  destruct Hin as [(d & _ & _ & -> & _)%detect_pii_rules_spec
                  |(d & _ & _ & -> & _)%detect_pii_ml_spec];
    unfold value_ok; by rewrite lookup_value_to_item.
Qed.

(** The error channel of the model is live: a truthy value that is not a
    string makes [mask_text] raise. *)
Example mask_text_int_value_raises :
  mask_text (lit "x5") [<[lit "value" := PInt 5]> ∅] = Raise TypeError.
Proof. vm_compute. reflexivity. Qed.

Example mask_value_int_email_raises :
  mask_value (PInt 5) (PStr (lit "EMAIL")) = Raise AttributeError.
Proof. vm_compute. reflexivity. Qed.

(** ** The sample document, end to end *)

Example sample_detections :
  detect_pii ascii_ucd sample_nlp sample_text
  = to_item <$>
      [mkDetection (lit "AADHAAR") (lit "1234 5678 9012") (98 # 100) (lit "rule");
       mkDetection (lit "PAN") (lit "ABCDE1234F") (97 # 100) (lit "rule");
       mkDetection (lit "PHONE") (lit "9876543210") (95 # 100) (lit "rule");
       mkDetection (lit "EMAIL") (lit "akanksh@example.com") (95 # 100) (lit "rule");
       mkDetection (lit "NAME") (lit "Akanksh Shetty") (75 # 100) (lit "ml");
       mkDetection (lit "ADDRESS") (lit "Tumkur") (70 # 100) (lit "ml");
       mkDetection (lit "ADDRESS") (lit "Karnataka") (70 # 100) (lit "ml")].
Proof. vm_compute. reflexivity. Qed.

Example sample_masked :
  mask_text sample_text (detect_pii ascii_ucd sample_nlp sample_text)
  = Ok (lit "
    Name: [REDACTED NAME]
    Lives in [REDACTED ADDRESS], [REDACTED ADDRESS].
    Aadhaar: XXXX XXXX 9012
    PAN: XXXXX34F
    Phone: XXXXXX3210
    Email: xxxxx@example.com
    ").
Proof. vm_compute. reflexivity. Qed.

(** * Further properties of the engine *)

(** ** What a match looks like *)

Lemma rep_sound (cls : N → bool) (k : option N → str → option nat) (s : str) :
  ∀ lo hi prev n,
    rep cls k lo hi prev s = Some n →
    ∃ b s' prev' m,
      s = b ++ s' ∧ n = length b + m ∧ block_ok (Repeat cls lo hi) b
      ∧ k prev' s' = Some m.
Proof.
  induction s as [|c s IH]; intros lo hi prev n.
  - cbn [rep]. destruct lo; [|done]. intros Hk.
    exists [], [], prev, n. split_and!; try done.
    simpl. split_and!; [lia|intros; lia|constructor].
  - assert (match lo with 0 => k prev (c :: s) | S _ => None end = Some n →
            ∃ b s' prev' m,
              c :: s = b ++ s' ∧ n = length b + m
              ∧ block_ok (Repeat cls lo hi) b ∧ k prev' s' = Some m) as Hstop.
    { destruct lo; [|done]. intros Hk.
      exists [], (c :: s), prev, n. split_and!; try done.
      simpl. split_and!; [lia|intros; lia|constructor]. }
    cbn [rep]. destruct (cls c) eqn:Hc; [|apply Hstop].
    destruct (can_take hi) eqn:Hhi; [|apply Hstop]. cbn [andb].
    destruct (rep cls k (pred lo) (pred <$> hi) (Some c) s) as [j|] eqn:Hrep;
      [|apply Hstop].
    intros [= <-].
    apply IH in Hrep as (b & s' & prev' & m & -> & -> & (Hlo & Hup & Hb) & Hk).
    exists (c :: b), s', prev', m. split_and!; try done.
    simpl. split_and!.
    + lia.
    + intros h ->. destruct h as [|h]; [done|].
      specialize (Hup h eq_refl). lia.
    + by constructor.
Qed.

Lemma match_here_sound (is_word : N → bool) (pat : list item) :
  ∀ prev s n,
    match_here is_word pat prev s = Some n →
    ∃ blocks rest,
      Forall2 block_ok pat blocks ∧ s = concat blocks ++ rest
      ∧ n = length (concat blocks).
Proof.
  induction pat as [|[|cls lo hi] pat IH]; intros prev s n; cbn [match_here].
  - intros [= <-]. exists [], s. split_and!; [constructor|done|done].
  - destruct (xorb _ _); [|done].
    intros (blocks & rest & Hb & -> & ->)%IH.
    exists ([] :: blocks), rest. split_and!; [by constructor|done|done].
  - intros (b & s' & prev' & m & -> & -> & Hb & Hk)%rep_sound.
    apply IH in Hk as (blocks & rest & Hbs & -> & ->).
    exists (b :: blocks), rest. split_and!; [by constructor| |].
    + cbn [concat]. by rewrite app_assoc.
    + cbn [concat]. by rewrite length_app.
Qed.

(** A match never runs past the end of the text, and it has the shape of
    the pattern. *)
Lemma match_here_shape (is_word : N → bool) (pat : list item)
    (prev : option N) (s : str) (n : nat) :
  match_here is_word pat prev s = Some n →
  n ≤ length s ∧ matches_shape pat (take n s).
Proof.
  intros (blocks & rest & Hb & -> & ->)%match_here_sound. split.
  - rewrite length_app. lia.
  - exists blocks. split; [done|]. by rewrite take_app_length.
Qed.

(** Everything [finditer] reports is a match of the pattern somewhere. *)
Lemma scan_shape (is_word : N → bool) (pat : list item) (s : str) :
  ∀ skip prev v, v ∈ scan is_word pat skip prev s → matches_shape pat v.
Proof.
  induction s as [|c s IH]; intros skip prev v.
  - cbn [scan]. destruct skip; [|by intros ?%elem_of_nil].
    destruct (match_here is_word pat prev []) as [n|] eqn:Hm;
      [|by intros ?%elem_of_nil].
    intros ->%list_elem_of_singleton.
    apply match_here_shape in Hm as [_ Hm]. by rewrite take_nil in Hm.
  - cbn [scan]. destruct skip as [|skip]; [|apply IH].
    destruct (match_here is_word pat prev (c :: s)) as [[|n]|] eqn:Hm;
      [| |apply IH].
    + intros [->|Hin]%elem_of_cons; [|by eapply IH].
      by apply match_here_shape in Hm as [_ Hm].
    + intros [->|Hin]%elem_of_cons; [|by eapply IH].
      by apply match_here_shape in Hm as [_ Hm].
Qed.

(** Blocks of fixed length. *)
Lemma block_times (n : nat) (cls : N → bool) (b : str) :
  block_ok (Times n cls) b → length b = n ∧ Forall (λ c, cls c = true) b.
Proof.
  intros (Hlo & Hhi & Hb). specialize (Hhi n eq_refl). split; [lia|done].
Qed.

Lemma block_one (cls : N → bool) (b : str) :
  block_ok (One cls) b → ∃ c, b = [c] ∧ cls c = true.
Proof.
  intros [Hlen Hb]%block_times. destruct b as [|c [|c' b]]; try done.
  exists c. split; [done|]. by inversion Hb.
Qed.

Lemma block_plus (n : nat) (cls : N → bool) (b : str) :
  block_ok (AtLeast n cls) b → n ≤ length b ∧ Forall (λ c, cls c = true) b.
Proof. by intros (Hlo & _ & Hb). Qed.

(** ** Where a record of [detect_pii] comes from *)

Lemma lookup_confidence_to_item (d : Detection) :
  to_item d !! lit "confidence" = Some (PFloat (d_confidence d)).
Proof.
  unfold to_item. rewrite !lookup_insert_ne by (vm_compute; discriminate).
  by rewrite lookup_insert_eq.
Qed.

Lemma lookup_source_to_item (d : Detection) :
  to_item d !! lit "source" = Some (PStr (d_source d)).
Proof.
  unfold to_item. rewrite !lookup_insert_ne by (vm_compute; discriminate).
  by rewrite lookup_insert_eq.
Qed.

Lemma detect_pii_rules_cases (ucd : UnicodeData) (text : str) (it : dict) :
  it ∈ detect_pii_rules ucd text →
  ∃ v,
    (it = rule_hit "AADHAAR" (98 # 100) v ∧ matches_shape (aadhaar_pattern ucd) v)
    ∨ (it = rule_hit "PAN" (97 # 100) v ∧ matches_shape (pan_pattern ucd) v)
    ∨ (it = rule_hit "PHONE" (95 # 100) v ∧ matches_shape (phone_pattern ucd) v)
    ∨ (it = rule_hit "EMAIL" (95 # 100) v ∧ matches_shape email_pattern v).
Proof.
  unfold detect_pii_rules, finditer. rewrite app_nil_l.
  rewrite !elem_of_app, !list_elem_of_fmap.
  intros [[[(v & -> & Hv)|(v & -> & Hv)]|(v & -> & Hv)]|(v & -> & Hv)];
    apply scan_shape in Hv; exists v; by eauto 6.
Qed.

Lemma detect_pii_ml_cases (nlp : str → list Span) (text : str) (it : dict) :
  it ∈ detect_pii_ml nlp text →
  ∃ ent, ent ∈ nlp text
    ∧ (it = to_item (mkDetection (lit "NAME") (span_text text ent) (75 # 100) (lit "ml"))
       ∨ it = to_item (mkDetection (lit "ADDRESS") (span_text text ent) (70 # 100) (lit "ml"))).
Proof.
  unfold detect_pii_ml. intros Hin%list_elem_of_In%in_concat.
  destruct Hin as (hits & Hhits%list_elem_of_In & Hin%list_elem_of_In).
  apply list_elem_of_fmap in Hhits as (ent & -> & Hent).
  exists ent. split; [done|]. unfold ml_hit in Hin.
  destruct (bool_decide (label_ ent = lit "PERSON")).
  { apply list_elem_of_singleton in Hin as ->. by left. }
  destruct (bool_decide (label_ ent = lit "GPE") || bool_decide (label_ ent = lit "LOC")).
  { apply list_elem_of_singleton in Hin as ->. by right. }
  by apply elem_of_nil in Hin.
Qed.

(** X1: every record of [detect_pii] is a detection whose type fixes its
    confidence and its source: one of the six rows of the tag table. *)
Theorem detect_pii_tags (ucd : UnicodeData) (nlp : str → list Span)
    (text : str) (it : dict) :
  it ∈ detect_pii ucd nlp text →
  ∃ d, it = to_item d ∧ (d_type d, d_confidence d, d_source d) ∈ tag_table.
Proof.
  rewrite detect_pii_unfold, elem_of_app.
  intros [(v & Hv)%detect_pii_rules_cases|(ent & _ & Hent)%detect_pii_ml_cases].
  - destruct Hv as [[-> _]|[[-> _]|[[-> _]|[-> _]]]]; eexists;
      (split; [reflexivity|]); unfold tag_table; cbn [d_type d_confidence d_source];
      set_solver.
  - destruct Hent as [->| ->]; eexists; (split; [reflexivity|]);
      unfold tag_table; cbn [d_type d_confidence d_source]; set_solver.
Qed.

Lemma detect_pii_tags_witness :
  ∃ d, to_item aadhaar_sample = to_item d
       ∧ (d_type d, d_confidence d, d_source d) ∈ tag_table.
Proof.
  apply (detect_pii_tags ascii_ucd sample_nlp sample_text).
  apply (list_elem_of_lookup_2 _ 0). vm_compute. reflexivity.
Defined.

(** The rule records of one type come from that type's pattern. *)
Lemma detect_pii_typed (ucd : UnicodeData) (nlp : str → list Span)
    (text : str) (it : dict) (ty : string) :
  it ∈ detect_pii ucd nlp text →
  it !! lit "type" = Some (PStr (lit ty)) →
  ∃ d, it = to_item d ∧ d_type d = lit ty
    ∧ (d_type d = lit "AADHAAR" → matches_shape (aadhaar_pattern ucd) (d_value d))
    ∧ (d_type d = lit "PAN" → matches_shape (pan_pattern ucd) (d_value d))
    ∧ (d_type d = lit "PHONE" → matches_shape (phone_pattern ucd) (d_value d))
    ∧ (d_type d = lit "EMAIL" → matches_shape email_pattern (d_value d)).
Proof.
  rewrite detect_pii_unfold, elem_of_app.
  intros [(v & Hv)%detect_pii_rules_cases|(ent & _ & Hent)%detect_pii_ml_cases] Hty.
  - destruct Hv as [[-> Hv]|[[-> Hv]|[[-> Hv]|[-> Hv]]]];
      unfold rule_hit in *; rewrite lookup_type_to_item in Hty;
      injection Hty as Hty; eexists; (split; [reflexivity|]);
      cbn [d_type d_value]; (split; [done|]);
      split_and!; intros Heq; try done; vm_compute in Heq; discriminate.
  - destruct Hent as [->| ->]; rewrite lookup_type_to_item in Hty;
      injection Hty as Hty; eexists; (split; [reflexivity|]);
      cbn [d_type d_value]; (split; [done|]);
      split_and!; intros Heq; vm_compute in Heq; discriminate.
Qed.

Lemma last_n_app (n : nat) (a b : str) : length b = n → last_n n (a ++ b) = b.
Proof.
  intros <-. unfold last_n. rewrite length_app.
  replace (length a + length b - length b) with (length a) by lia.
  apply drop_app_length.
Qed.

Ltac invert_shape H :=
  let blocks := fresh "blocks" in
  let HF := fresh "HF" in
  destruct H as (blocks & HF & ->);
  repeat (let b := fresh "b" in
          let Hb := fresh "Hb" in
          apply Forall2_cons_inv_l in HF as (b & ? & Hb & HF & ->));
  apply Forall2_nil_inv_l in HF as ->.

(** ** The detections of each rule, and their masks *)

(** X2: an Aadhaar record of [detect_pii] holds fourteen code points: three
    blocks of four decimal digits with one white-space code point between
    them.  Its mask is ["XXXX XXXX "] followed by the last block, and is as
    long as the value. *)
Theorem aadhaar_detection_shape (ucd : UnicodeData) (nlp : str → list Span)
    (text : str) (it : dict) :
  it ∈ detect_pii ucd nlp text →
  it !! lit "type" = Some (PStr (lit "AADHAAR")) →
  ∃ b1 sp1 b2 sp2 b3,
    let value := b1 ++ [sp1] ++ b2 ++ [sp2] ++ b3 in
    it !! lit "value" = Some (PStr value)
    ∧ length b1 = 4 ∧ length b2 = 4 ∧ length b3 = 4
    ∧ Forall (λ c, re_digit ucd c = true) (b1 ++ b2 ++ b3)
    ∧ re_space ucd sp1 = true ∧ re_space ucd sp2 = true
    ∧ mask_value (PStr value) (PStr (lit "AADHAAR")) = Ok (lit "XXXX XXXX " ++ b3)
    ∧ length (lit "XXXX XXXX " ++ b3) = length value.
Proof.
  intros Hin Hty.
  destruct (detect_pii_typed ucd nlp text it "AADHAAR" Hin Hty)
    as (d & -> & Hd & Hshape & _).
  specialize (Hshape Hd). unfold aadhaar_pattern in Hshape.
  destruct d as [ty v conf src]. cbn [d_type d_value] in *.
  invert_shape Hshape.
  apply block_times in Hb0 as [L1 D1], Hb2 as [L2 D2], Hb4 as [L3 D3].
  apply block_one in Hb1 as (sp1 & -> & S1), Hb3 as (sp2 & -> & S2).
  simpl in Hb, Hb5. subst.
  exists b0, sp1, b2, sp2, b4. cbn zeta.
  rewrite lookup_value_to_item. cbn [d_value concat]. rewrite !app_nil_r.
  split_and!; try done.
  - cbn [app]. rewrite !Forall_app. done.
  - rewrite mask_value_aadhaar. do 2 f_equal.
    rewrite !app_assoc. by apply last_n_app.
  - rewrite !length_app, L1, L2, L3. reflexivity.
Qed.

Lemma aadhaar_detection_shape_witness :
  ∃ b1 sp1 b2 sp2 b3,
    let value := b1 ++ [sp1] ++ b2 ++ [sp2] ++ b3 in
    to_item aadhaar_sample !! lit "value" = Some (PStr value)
    ∧ length b1 = 4 ∧ length b2 = 4 ∧ length b3 = 4
    ∧ Forall (λ c, re_digit ascii_ucd c = true) (b1 ++ b2 ++ b3)
    ∧ re_space ascii_ucd sp1 = true ∧ re_space ascii_ucd sp2 = true
    ∧ mask_value (PStr value) (PStr (lit "AADHAAR")) = Ok (lit "XXXX XXXX " ++ b3)
    ∧ length (lit "XXXX XXXX " ++ b3) = length value.
Proof.
  apply (aadhaar_detection_shape ascii_ucd sample_nlp sample_text).
  - apply (list_elem_of_lookup_2 _ 0). vm_compute. reflexivity.
  - vm_compute. reflexivity.
Defined.

(** X3: a PAN record holds ten code points: five letters [A-Z], four decimal
    digits and a letter [A-Z].  Its mask is ["XXXXX"] followed by the last
    two digits and the final letter: eight code points. *)
Theorem pan_detection_shape (ucd : UnicodeData) (nlp : str → list Span)
    (text : str) (it : dict) :
  it ∈ detect_pii ucd nlp text →
  it !! lit "type" = Some (PStr (lit "PAN")) →
  ∃ letters digits final,
    let value := letters ++ digits ++ [final] in
    it !! lit "value" = Some (PStr value)
    ∧ length letters = 5 ∧ length digits = 4
    ∧ Forall (λ c, in_range "A" "Z" c = true) (letters ++ [final])
    ∧ Forall (λ c, re_digit ucd c = true) digits
    ∧ mask_value (PStr value) (PStr (lit "PAN"))
      = Ok (lit "XXXXX" ++ drop 2 digits ++ [final])
    ∧ length (lit "XXXXX" ++ drop 2 digits ++ [final]) = 8.
Proof.
  intros Hin Hty.
  destruct (detect_pii_typed ucd nlp text it "PAN" Hin Hty)
    as (d & -> & Hd & _ & Hshape & _).
  specialize (Hshape Hd). unfold pan_pattern in Hshape.
  destruct d as [ty v conf src]. cbn [d_type d_value] in *.
  invert_shape Hshape.
  apply block_times in Hb0 as [L1 D1], Hb1 as [L2 D2].
  apply block_one in Hb2 as (z & -> & Hz).
  simpl in Hb, Hb3. subst.
  exists b0, b1, z. cbn zeta.
  rewrite lookup_value_to_item. cbn [d_value concat]. rewrite !app_nil_r.
  split_and!; try done.
  - rewrite Forall_app. split; [done|by repeat constructor].
  - rewrite mask_value_pan. do 2 f_equal.
    rewrite <- (take_drop 2 b1) at 1. rewrite <- !app_assoc, !app_assoc.
    rewrite <- app_assoc. apply last_n_app.
    rewrite length_app, length_drop, L2. reflexivity.
  - rewrite !length_app, length_drop, L2. reflexivity.
Qed.

Lemma pan_detection_shape_witness :
  ∃ letters digits final,
    let value := letters ++ digits ++ [final] in
    rule_hit "PAN" (97 # 100) (lit "ABCDE1234F") !! lit "value" = Some (PStr value)
    ∧ length letters = 5 ∧ length digits = 4
    ∧ Forall (λ c, in_range "A" "Z" c = true) (letters ++ [final])
    ∧ Forall (λ c, re_digit ascii_ucd c = true) digits
    ∧ mask_value (PStr value) (PStr (lit "PAN"))
      = Ok (lit "XXXXX" ++ drop 2 digits ++ [final])
    ∧ length (lit "XXXXX" ++ drop 2 digits ++ [final]) = 8.
Proof.
  apply (pan_detection_shape ascii_ucd sample_nlp sample_text).
  - apply (list_elem_of_lookup_2 _ 1). vm_compute. reflexivity.
  - vm_compute. reflexivity.
Defined.

(** X4: a PHONE record holds ten code points: one of [6-9] and nine decimal
    digits.  Its mask is ["XXXXXX"] followed by the last four digits, and
    is as long as the value. *)
Theorem phone_detection_shape (ucd : UnicodeData) (nlp : str → list Span)
    (text : str) (it : dict) :
  it ∈ detect_pii ucd nlp text →
  it !! lit "type" = Some (PStr (lit "PHONE")) →
  ∃ first digits,
    let value := first :: digits in
    it !! lit "value" = Some (PStr value)
    ∧ in_range "6" "9" first = true ∧ length digits = 9
    ∧ Forall (λ c, re_digit ucd c = true) digits
    ∧ mask_value (PStr value) (PStr (lit "PHONE"))
      = Ok (lit "XXXXXX" ++ drop 5 digits)
    ∧ length (lit "XXXXXX" ++ drop 5 digits) = length value.
Proof.
  intros Hin Hty.
  destruct (detect_pii_typed ucd nlp text it "PHONE" Hin Hty)
    as (d & -> & Hd & _ & _ & Hshape & _).
  specialize (Hshape Hd). unfold phone_pattern in Hshape.
  destruct d as [ty v conf src]. cbn [d_type d_value] in *.
  invert_shape Hshape.
  apply block_one in Hb0 as (first & -> & Hfirst).
  apply block_times in Hb1 as [L D].
  simpl in Hb, Hb2. subst.
  exists first, b1. cbn zeta.
  rewrite lookup_value_to_item. cbn [d_value concat app]. rewrite !app_nil_r.
  split_and!; try done.
  - rewrite mask_value_phone. do 2 f_equal.
    rewrite <- (take_drop 5 b1) at 1.
    change (first :: take 5 b1 ++ drop 5 b1)
      with ((first :: take 5 b1) ++ drop 5 b1).
    apply last_n_app. rewrite length_drop, L. reflexivity.
  - rewrite length_app, length_drop, L. simpl. by rewrite L.
Qed.

Lemma phone_detection_shape_witness :
  ∃ first digits,
    let value := first :: digits in
    rule_hit "PHONE" (95 # 100) (lit "9876543210") !! lit "value" = Some (PStr value)
    ∧ in_range "6" "9" first = true ∧ length digits = 9
    ∧ Forall (λ c, re_digit ascii_ucd c = true) digits
    ∧ mask_value (PStr value) (PStr (lit "PHONE"))
      = Ok (lit "XXXXXX" ++ drop 5 digits)
    ∧ length (lit "XXXXXX" ++ drop 5 digits) = length value.
Proof.
  apply (phone_detection_shape ascii_ucd sample_nlp sample_text).
  - apply (list_elem_of_lookup_2 _ 2). vm_compute. reflexivity.
  - vm_compute. reflexivity.
Defined.

Lemma contains_char_app (a : N) (x y : str) :
  contains [a] (x ++ y) = contains [a] x || contains [a] y.
Proof.
  induction x as [|c x IH]; [done|].
  cbn [app contains starts_with]. rewrite IH, !andb_true_r. by rewrite orb_assoc.
Qed.

Lemma contains_char_class (cls : N → bool) (a : N) (b : str) :
  cls a = false → Forall (λ c, cls c = true) b → contains [a] b = false.
Proof.
  intros Ha Hb. induction Hb as [|c b Hc _ IH]; [done|].
  cbn [contains starts_with]. rewrite IH, andb_true_r, orb_false_r.
  apply N.eqb_neq. intros ->. congruence.
Qed.

(** X5: an EMAIL record holds [local @ host . tld] with a non-empty local part
    and host and at least two letters of top-level domain, and no ["@"]
    other than the one between local part and host.  So its mask is always
    ["xxxxx@"] followed by host and top-level domain, never the fallback
    ["[REDACTED EMAIL]"]. *)
Theorem email_detection_shape (ucd : UnicodeData) (nlp : str → list Span)
    (text : str) (it : dict) :
  it ∈ detect_pii ucd nlp text →
  it !! lit "type" = Some (PStr (lit "EMAIL")) →
  ∃ local host tld,
    let value := local ++ lit "@" ++ host ++ lit "." ++ tld in
    it !! lit "value" = Some (PStr value)
    ∧ 1 ≤ length local ∧ 1 ≤ length host ∧ 2 ≤ length tld
    ∧ Forall (λ c, email_local c = true) local
    ∧ Forall (λ c, email_domain c = true) host
    ∧ Forall (λ c, letter c = true) tld
    ∧ contains (lit "@") local = false
    ∧ contains (lit "@") (host ++ lit "." ++ tld) = false
    ∧ mask_value (PStr value) (PStr (lit "EMAIL"))
      = Ok (lit "xxxxx@" ++ host ++ lit "." ++ tld).
Proof.
  intros Hin Hty.
  destruct (detect_pii_typed ucd nlp text it "EMAIL" Hin Hty)
    as (d & -> & Hd & _ & _ & _ & Hshape).
  specialize (Hshape Hd). unfold email_pattern in Hshape.
  destruct d as [ty v conf src]. cbn [d_type d_value] in *.
  invert_shape Hshape.
  apply (block_plus 1) in Hb0 as [L1 C1], Hb2 as [L2 C2].
  apply block_plus in Hb4 as [L3 C3].
  apply block_one in Hb1 as (at_sign & -> & Hat), Hb3 as (dot & -> & Hdot).
  simpl in Hb, Hb5. subst.
  assert (at_sign = 64%N) as ->.
  { change (is_char "@" at_sign) with (64 =? at_sign)%N in Hat.
    by apply N.eqb_eq in Hat. }
  assert (dot = 46%N) as ->.
  { change (is_char "." dot) with (46 =? dot)%N in Hdot.
    by apply N.eqb_eq in Hdot. }
  assert (contains [64%N] b0 = false) as Hlocal
    by (by apply (contains_char_class email_local)).
  assert (contains [64%N] (b2 ++ [46%N] ++ b4) = false) as Hhost.
  { rewrite !contains_char_app.
    rewrite (contains_char_class email_domain 64 b2) by done.
    by rewrite (contains_char_class letter 64 b4). }
  exists b0, b2, b4. cbn zeta.
  rewrite lookup_value_to_item. cbn [d_value concat]. rewrite !app_nil_r.
  change (lit "@") with [64%N]. change (lit ".") with [46%N].
  split_and!; try done.
  rewrite mask_value_email. cbn zeta.
  change (lit "@") with [64%N].
  change ([64%N] ++ b2 ++ [46%N] ++ b4) with (64%N :: (b2 ++ [46%N] ++ b4)).
  by rewrite split_from_char_one.
Qed.

Lemma email_detection_shape_witness :
  ∃ local host tld,
    let value := local ++ lit "@" ++ host ++ lit "." ++ tld in
    rule_hit "EMAIL" (95 # 100) (lit "akanksh@example.com") !! lit "value"
    = Some (PStr value)
    ∧ 1 ≤ length local ∧ 1 ≤ length host ∧ 2 ≤ length tld
    ∧ Forall (λ c, email_local c = true) local
    ∧ Forall (λ c, email_domain c = true) host
    ∧ Forall (λ c, letter c = true) tld
    ∧ contains (lit "@") local = false
    ∧ contains (lit "@") (host ++ lit "." ++ tld) = false
    ∧ mask_value (PStr value) (PStr (lit "EMAIL"))
      = Ok (lit "xxxxx@" ++ host ++ lit "." ++ tld).
Proof.
  apply (email_detection_shape ascii_ucd sample_nlp sample_text).
  - apply (list_elem_of_lookup_2 _ 3). vm_compute. reflexivity.
  - vm_compute. reflexivity.
Defined.

(** ** The matches of one pattern do not overlap *)

Lemma weave_cons (c : N) (gaps vals : list str) (rest : str) :
  length gaps = length vals →
  ∃ gaps' rest',
    length gaps' = length vals
    ∧ c :: concat (zip_with app gaps vals) ++ rest
      = concat (zip_with app gaps' vals) ++ rest'.
Proof.
  destruct gaps as [|g gaps], vals as [|v vals]; try done; intros Hlen.
  - by exists [], (c :: rest).
  - by exists ((c :: g) :: gaps), rest.
Qed.

Lemma scan_weave (is_word : N → bool) (pat : list item) (s : str) :
  ∀ skip prev,
    skip ≤ length s →
    ∃ gaps rest,
      length gaps = length (scan is_word pat skip prev s)
      ∧ drop skip s
        = concat (zip_with app gaps (scan is_word pat skip prev s)) ++ rest.
Proof.
  induction s as [|c s IH]; intros skip prev Hskip.
  - simpl in Hskip. replace skip with 0 by lia. cbn [scan].
    destruct (match_here is_word pat prev []).
    + by exists [[]], [].
    + by exists [], [].
  - cbn [scan]. destruct skip as [|skip].
    + destruct (match_here is_word pat prev (c :: s)) as [[|n]|] eqn:Hm.
      * destruct (IH 0 (Some c)) as (gaps & rest & Hlen & Hs); [lia|].
        rewrite drop_0 in Hs.
        destruct (weave_cons c gaps _ rest Hlen) as (gaps' & rest' & Hlen' & Hc).
        exists ([] :: gaps'), rest'. split; [simpl; by rewrite Hlen'|].
        rewrite drop_0. rewrite Hs at 1. by rewrite Hc.
      * apply match_here_shape in Hm as [Hn _]. cbn [length] in Hn.
        destruct (IH n (Some c)) as (gaps & rest & Hlen & Hs); [lia|].
        exists ([] :: gaps), rest. split; [simpl; by rewrite Hlen|].
        rewrite drop_0. cbn [zip_with concat]. rewrite app_nil_l, <- app_assoc, <- Hs.
        change (drop n s) with (drop (S n) (c :: s)). by rewrite take_drop.
      * destruct (IH 0 (Some c)) as (gaps & rest & Hlen & Hs); [lia|].
        rewrite drop_0 in Hs.
        destruct (weave_cons c gaps _ rest Hlen) as (gaps' & rest' & Hlen' & Hc).
        exists gaps', rest'. split; [done|].
        rewrite drop_0. rewrite Hs at 1. by rewrite Hc.
    + cbn [length] in Hskip. destruct (IH skip (Some c)) as (gaps & rest & Hlen & Hs); [lia|].
      by exists gaps, rest.
Qed.

(** X6: the matches that [finditer] reports for a pattern lie in the text one
    after the other, in the order reported and without overlap: the text is
    a gap, the first match, a gap, the second match, and so on, and a
    rest. *)
Theorem finditer_disjoint (ucd : UnicodeData) (pat : list item) (text : str) :
  ∃ gaps rest,
    length gaps = length (finditer ucd pat text)
    ∧ text = concat (zip_with app gaps (finditer ucd pat text)) ++ rest.
Proof.
  unfold finditer.
  destruct (scan_weave (re_word ucd) pat text 0 None) as (gaps & rest & Hlen & Hs);
    [lia|].
  exists gaps, rest. by rewrite drop_0 in Hs.
Qed.

(** ** Which numbers the rules are sure to find *)

Lemma finditer_reports (ucd : UnicodeData) (pat : list item)
    (pre v post : str) (n : nat) :
  clear_run (re_word ucd) pat None pre (v ++ post) = true →
  match_here (re_word ucd) pat (last pre) (v ++ post) = Some (S n) →
  length v = S n →
  v ∈ finditer ucd pat (pre ++ v ++ post).
Proof.
  intros Hclear Hm Hlen. unfold finditer.
  destruct (scan_reaches _ _ pre _ 0 None Hclear) as [found ->]; [lia|].
  apply elem_of_app. right.
  assert (prev_after None pre = last pre) as -> by
    (unfold prev_after; by destruct (last pre)).
  rewrite <- (take_app_length' v post (S n)) at 1 by done.
  by apply scan_reports.
Qed.

(** A pattern whose matches consist of word characters cannot match across
    a word boundary, so no match that starts before the boundary reaches
    beyond it. *)
Lemma clear_run_word_only (is_word : N → bool) (pat : list item) :
  (∀ prev s n, match_here is_word pat prev s = Some n →
               Forall (λ c, is_word c = true) (take n s)) →
  ∀ pre rest prev,
    word_at is_word (last pre) = false →
    clear_run is_word pat prev pre rest = true.
Proof.
  intros Hword pre rest. induction pre as [|c pre IH]; intros prev Hlast; [done|].
  cbn [clear_run]. apply andb_true_intro. split.
  - destruct (match_here is_word pat prev ((c :: pre) ++ rest)) as [n|] eqn:Hm;
      [|done].
    apply Nat.leb_le. destruct (decide (n ≤ length (c :: pre))) as [|Hgt]; [done|].
    apply Hword in Hm. rewrite take_app_ge in Hm by lia.
    apply Forall_app in Hm as [Hpre _].
    destruct (last (c :: pre)) as [x|] eqn:Hx; [|by apply last_None in Hx].
    cbn [word_at] in Hlast.
    apply last_Some in Hx as [l' Hx]. rewrite Hx in Hpre.
    apply Forall_app in Hpre as [_ Hx']. inversion Hx'; congruence.
  - apply IH. rewrite last_cons in Hlast. by destruct (last pre).
Qed.

Lemma ascii_word (ucd : UnicodeData) (c : N) :
  agrees_on_ascii ucd = true → is_ascii c = true →
  re_word ucd c = re_word ascii_ucd c.
Proof.
  intros Hucd Hc.
  by destruct (same_class_spec ucd ascii_ucd c) as (_ & _ & ->);
    [apply agrees_on_ascii_spec|].
Qed.

Lemma in_range_ascii (lo hi : string) (c : N) :
  forallb is_ascii (lit hi) = true → in_range lo hi c = true → is_ascii c = true.
Proof.
  unfold in_range, is_ascii.
  destruct (lit lo) as [|a [|]]; try done.
  destruct (lit hi) as [|b [|]]; try done.
  cbn [forallb]. rewrite andb_true_r.
  intros Hb%N.ltb_lt [_ Hc%N.leb_le]%andb_prop. apply N.ltb_lt. lia.
Qed.

Lemma upper_word (ucd : UnicodeData) (c : N) :
  agrees_on_ascii ucd = true → in_range "A" "Z" c = true → re_word ucd c = true.
Proof.
  intros Hucd Hc. rewrite ascii_word; [|done|by apply (in_range_ascii "A" "Z")].
  unfold re_word, uni_isalnum. cbn [ascii_ucd uni_isalpha]. by rewrite Hc.
Qed.

Lemma six_to_nine_digit (ucd : UnicodeData) (c : N) :
  agrees_on_ascii ucd = true → in_range "6" "9" c = true → re_digit ucd c = true.
Proof.
  intros Hucd Hc. apply ascii_digit; [done|].
  unfold in_range in *. simpl in *.
  apply andb_prop in Hc as [H1%N.leb_le H2%N.leb_le].
  apply andb_true_intro. split; apply N.leb_le; lia.
Qed.

Lemma phone_match_here (ucd : UnicodeData) (prev : option N)
    (first : N) (digits post : str) :
  agrees_on_ascii ucd = true →
  in_range "6" "9" first = true → length digits = 9 →
  Forall (λ c, re_digit ucd c = true) digits →
  word_at (re_word ucd) prev = false →
  word_at (re_word ucd) (head post) = false →
  match_here (re_word ucd) (phone_pattern ucd) prev (first :: digits ++ post)
  = Some 10.
Proof.
  intros Hucd Hfirst L D Hprev Hpost.
  destruct (block_ends digits 8 L) as (_ & z & _ & Hz & _ & Hin).
  unfold phone_pattern, Times, One. cbn [match_here head word_at].
  rewrite Hprev, (re_digit_word ucd first) by (by apply six_to_nine_digit).
  cbn [xorb].
  change (first :: digits ++ post) with ([first] ++ digits ++ post).
  rewrite (rep_exact _ _ 1 [first]) by (done || by repeat constructor).
  rewrite (rep_exact _ _ 9 digits) by done.
  cbn [match_here]. unfold prev_after at 1. rewrite Hz. cbn [word_at].
  rewrite (re_digit_word ucd z) by (by eapply (proj1 (Forall_forall _ _) D)).
  rewrite Hpost. reflexivity.
Qed.

Lemma pan_match_here (ucd : UnicodeData) (prev : option N)
    (letters digits : str) (final : N) (post : str) :
  agrees_on_ascii ucd = true →
  length letters = 5 → length digits = 4 →
  Forall (λ c, in_range "A" "Z" c = true) letters →
  Forall (λ c, re_digit ucd c = true) digits →
  in_range "A" "Z" final = true →
  word_at (re_word ucd) prev = false →
  word_at (re_word ucd) (head post) = false →
  match_here (re_word ucd) (pan_pattern ucd) prev
    (letters ++ digits ++ [final] ++ post) = Some 10.
Proof.
  intros Hucd L1 L2 D1 D2 Hfinal Hprev Hpost.
  destruct (block_ends letters 4 L1) as (a & _ & Ha & _ & Hin & _).
  unfold pan_pattern, Times, One. cbn [match_here].
  assert (head (letters ++ digits ++ [final] ++ post) = Some a) as ->.
  { destruct letters; [done|]. simpl in *. congruence. }
  cbn [word_at]. rewrite Hprev.
  rewrite (upper_word ucd a) by (done || by eapply (proj1 (Forall_forall _ _) D1)).
  cbn [xorb].
  rewrite (rep_exact _ _ 5 letters) by done.
  rewrite (rep_exact _ _ 4 digits) by done.
  rewrite (rep_exact _ _ 1 [final]) by (done || by repeat constructor).
  cbn [match_here]. unfold prev_after at 1. cbn [last word_at].
  rewrite (upper_word ucd final), Hpost by done. reflexivity.
Qed.

Lemma phone_match_word (ucd : UnicodeData) (prev : option N) (s : str) (n : nat) :
  agrees_on_ascii ucd = true →
  match_here (re_word ucd) (phone_pattern ucd) prev s = Some n →
  Forall (λ c, re_word ucd c = true) (take n s).
Proof.
  intros Hucd [_ Hshape]%match_here_shape. unfold phone_pattern in Hshape.
  revert Hshape. generalize (take n s). intros v Hshape. invert_shape Hshape.
  apply block_one in Hb0 as (first & -> & Hfirst).
  apply block_times in Hb1 as [L D].
  simpl in Hb, Hb2. subst. cbn [concat]. rewrite !app_nil_r. cbn [app].
  constructor.
  - by apply re_digit_word, six_to_nine_digit.
  - apply (Forall_impl _ _ _ D). intros c. apply re_digit_word.
Qed.

Lemma pan_match_word (ucd : UnicodeData) (prev : option N) (s : str) (n : nat) :
  agrees_on_ascii ucd = true →
  match_here (re_word ucd) (pan_pattern ucd) prev s = Some n →
  Forall (λ c, re_word ucd c = true) (take n s).
Proof.
  intros Hucd [_ Hshape]%match_here_shape. unfold pan_pattern in Hshape.
  revert Hshape. generalize (take n s). intros v Hshape. invert_shape Hshape.
  apply block_times in Hb0 as [L1 D1], Hb1 as [L2 D2].
  apply block_one in Hb2 as (z & -> & Hz).
  simpl in Hb, Hb3. subst. cbn [concat]. rewrite !app_nil_r, app_nil_l.
  rewrite !Forall_app. split_and!.
  - apply (Forall_impl _ _ _ D1). intros c. by apply upper_word.
  - apply (Forall_impl _ _ _ D2). intros c. apply re_digit_word.
  - repeat constructor. by apply upper_word.
Qed.

(** X7: every phone number that stands between two word boundaries is found:
    a code point of [6-9] and nine decimal digits, not directly preceded or
    followed by a word character, is reported as PHONE wherever it stands in
    the text.  No earlier match can hide it, because a match of the phone
    pattern holds word characters only. *)
Theorem phone_detected (ucd : UnicodeData) (nlp : str → list Span)
    (pre : str) (first : N) (digits post : str) :
  agrees_on_ascii ucd = true →
  in_range "6" "9" first = true → length digits = 9 →
  Forall (λ c, re_digit ucd c = true) digits →
  word_at (re_word ucd) (last pre) = false →
  word_at (re_word ucd) (head post) = false →
  rule_hit "PHONE" (95 # 100) (first :: digits)
  ∈ detect_pii ucd nlp (pre ++ (first :: digits) ++ post).
Proof.
  intros Hucd Hfirst L D Hpre Hpost.
  rewrite detect_pii_unfold. apply elem_of_app. left.
  unfold detect_pii_rules. rewrite app_nil_l, !elem_of_app. left. right.
  apply list_elem_of_fmap. exists (first :: digits). split; [done|].
  apply (finditer_reports ucd _ pre _ post 9).
  - apply clear_run_word_only; [|done].
    intros prev s n. by apply phone_match_word.
  - by apply phone_match_here.
  - simpl. by rewrite L.
Qed.

Lemma phone_detected_witness :
  rule_hit "PHONE" (95 # 100) (lit "9876543210")
  ∈ detect_pii ascii_ucd sample_nlp
      (lit "Phone: " ++ lit "9876543210" ++ lit ", Phone2: 98765432100").
Proof.
  apply (phone_detected ascii_ucd sample_nlp (lit "Phone: ") 57 (lit "876543210"));
    try (vm_compute; reflexivity).
  repeat constructor.
Defined.

(** X8: every PAN that stands between two word boundaries is found: five
    letters [A-Z], four decimal digits and a letter [A-Z], not directly
    preceded or followed by a word character. *)
Theorem pan_detected (ucd : UnicodeData) (nlp : str → list Span)
    (pre letters digits : str) (final : N) (post : str) :
  agrees_on_ascii ucd = true →
  length letters = 5 → length digits = 4 →
  Forall (λ c, in_range "A" "Z" c = true) letters →
  Forall (λ c, re_digit ucd c = true) digits →
  in_range "A" "Z" final = true →
  word_at (re_word ucd) (last pre) = false →
  word_at (re_word ucd) (head post) = false →
  rule_hit "PAN" (97 # 100) (letters ++ digits ++ [final])
  ∈ detect_pii ucd nlp (pre ++ (letters ++ digits ++ [final]) ++ post).
Proof.
  intros Hucd L1 L2 D1 D2 Hfinal Hpre Hpost.
  rewrite detect_pii_unfold. apply elem_of_app. left.
  unfold detect_pii_rules. rewrite app_nil_l, !elem_of_app. do 2 left. right.
  apply list_elem_of_fmap. exists (letters ++ digits ++ [final]). split; [done|].
  apply (finditer_reports ucd _ pre _ post 9).
  - apply clear_run_word_only; [|done].
    intros prev s n. by apply pan_match_word.
  - rewrite <- !app_assoc. by apply pan_match_here.
  - rewrite !length_app, L1, L2. reflexivity.
Qed.

Lemma pan_detected_witness :
  rule_hit "PAN" (97 # 100) (lit "ABCDE1234F")
  ∈ detect_pii ascii_ucd sample_nlp
      (lit "PAN: " ++ lit "ABCDE1234F" ++ lit ".").
Proof.
  apply (pan_detected ascii_ucd sample_nlp (lit "PAN: ") (lit "ABCDE") (lit "1234") 70);
    try (vm_compute; reflexivity); repeat constructor.
Defined.

(** X9: every Aadhaar number between two word boundaries is found unless an
    earlier match of the Aadhaar pattern reaches into it: three blocks of
    four decimal digits, separated by single white-space code points. *)
Theorem aadhaar_detected (ucd : UnicodeData) (nlp : str → list Span)
    (pre b1 b2 b3 : str) (sp1 sp2 : N) (post : str) :
  let value := b1 ++ [sp1] ++ b2 ++ [sp2] ++ b3 in
  length b1 = 4 → length b2 = 4 → length b3 = 4 →
  Forall (λ c, re_digit ucd c = true) (b1 ++ b2 ++ b3) →
  re_space ucd sp1 = true → re_space ucd sp2 = true →
  word_at (re_word ucd) (last pre) = false →
  word_at (re_word ucd) (head post) = false →
  clear_run (re_word ucd) (aadhaar_pattern ucd) None pre (value ++ post) = true →
  rule_hit "AADHAAR" (98 # 100) value ∈ detect_pii ucd nlp (pre ++ value ++ post).
Proof.
  intros value L1 L2 L3 HD S1 S2 Hpre Hpost Hclear.
  apply Forall_app in HD as (D1 & (D2 & D3)%Forall_app).
  rewrite detect_pii_unfold. apply elem_of_app. left.
  unfold detect_pii_rules. rewrite app_nil_l, !elem_of_app. do 3 left.
  apply list_elem_of_fmap. exists value. split; [done|].
  apply (finditer_reports ucd _ pre _ post 13); [done| |].
  - unfold value. rewrite <- !app_assoc. by apply aadhaar_match_here.
  - unfold value. rewrite !length_app, L1, L2, L3. reflexivity.
Qed.

Lemma aadhaar_detected_witness :
  rule_hit "AADHAAR" (98 # 100) (lit "2345 6789 0123")
  ∈ detect_pii ascii_ucd sample_nlp
      (lit "ids: 1234 5678 9012, " ++ lit "2345 6789 0123" ++ lit ".").
Proof.
  apply (aadhaar_detected ascii_ucd sample_nlp (lit "ids: 1234 5678 9012, ")
           (lit "2345") (lit "6789") (lit "0123") 32 32 (lit "."));
    try (vm_compute; reflexivity); repeat constructor.
Defined.

(** ** When masking raises *)

Lemma mask_value_not_str (text : str) (value pii_type : pyval) :
  (∀ v, value ≠ PStr v) →
  ∃ e, (masked ← mask_value value pii_type; py_replace text value masked)
       = Raise e.
Proof.
  intros Hv. destruct value as [| b | z | q | v]; [..|by destruct (Hv v)];
    unfold mask_value;
    (destruct (py_eq_str pii_type (lit "AADHAAR")); [by eexists|]);
    (destruct (py_eq_str pii_type (lit "PAN")); [by eexists|]);
    (destruct (py_eq_str pii_type (lit "PHONE")); [by eexists|]);
    (destruct (py_eq_str pii_type (lit "EMAIL")); [by eexists|]);
    (destruct pii_type as [| | | |t]; try (by eexists));
    destruct (bool_decide (t = lit "NAME") || bool_decide (t = lit "ADDRESS"));
    by eexists.
Qed.

(** X12: one record is processed without an exception exactly when its value is
    falsy (absent, empty, [None], [False], zero) or a string; a truthy value
    of another kind raises, whatever the type field holds. *)
Theorem mask_item_ok_iff (text : str) (it : dict) :
  let value := get it "value" (PStr (lit "")) in
  (∃ out, mask_item text it = Ok out)
  ↔ (truthy value = false ∨ ∃ v, value = PStr v).
Proof.
  cbn zeta. unfold mask_item.
  generalize (get it "value" (PStr (lit ""))) as value.
  generalize (get it "type" (PStr (lit "UNKNOWN"))) as pii_type.
  intros pii_type value. split.
  - intros [out Hout].
    destruct (truthy value) eqn:Htruthy; [|by left].
    right. destruct value as [| b | z | q | v]; [| | | |by exists v].
    all: edestruct (mask_value_not_str text) as [e He];
      [|rewrite He in Hout; discriminate Hout].
    all: intros v; discriminate.
  - intros [-> | [v ->]]; [by eexists|].
    destruct (truthy (PStr v)); [|by eexists].
    destruct (mask_value_str_ok v pii_type) as [masked ->].
    by eexists.
Qed.

Lemma mask_item_ok_iff_witness :
  ∃ out, mask_item (lit "id 1234 5678 9012") (to_item aadhaar_sample) = Ok out.
Proof.
  apply (proj2 (mask_item_ok_iff (lit "id 1234 5678 9012") (to_item aadhaar_sample))).
  right. exists (lit "1234 5678 9012"). vm_compute. reflexivity.
Defined.

(** X13: records with a falsy value play no part: masking with a selection is
    masking with its records of truthy value. *)
Theorem mask_text_skips_falsy (items : list dict) (text : str) :
  mask_text text items
  = mask_text text
      (filter (λ it, truthy (get it "value" (PStr (lit ""))) = true) items).
Proof.
  revert text. induction items as [|it items IH]; intros text; [done|].
  destruct (truthy (get it "value" (PStr (lit "")))) eqn:Htruthy.
  - rewrite filter_cons_True by done. cbn [mask_text].
    destruct (mask_item text it); [|done]. cbn [mbind result_bind]. apply IH.
  - rewrite filter_cons_False by (by rewrite Htruthy). cbn [mask_text].
    unfold mask_item. rewrite Htruthy. cbn [mbind result_bind]. apply IH.
Qed.

(** X14: an empty document stays empty under every selection of well-shaped
    records. *)
Theorem mask_text_empty_text (items : list dict) :
  forallb value_ok items = true → mask_text [] items = Ok [].
Proof.
  induction items as [|it items IH]; [done|].
  cbn [forallb mask_text]. intros [Hit Hitems]%andb_prop.
  assert (mask_item [] it = Ok []) as ->; [|by apply IH].
  unfold value_ok in Hit. unfold mask_item, get.
  change (lit "value"%string) with (lit "value").
  destruct (it !! lit "value") as [[| b | z | q | v]|]; try done.
  cbn [from_option id]. destruct (truthy (PStr v)) eqn:Hv; [|done].
  destruct (mask_value_str_ok v (default (PStr (lit "UNKNOWN")) (it !! lit "type")))
    as [masked ->].
  cbn [mbind result_bind py_replace]. by destruct v.
Qed.

Lemma mask_text_empty_text_witness :
  mask_text [] [to_item aadhaar_sample; <[lit "type" := PStr (lit "NAME")]> ∅]
  = Ok [].
Proof. apply mask_text_empty_text. vm_compute. reflexivity. Defined.

(** X15: the first record that raises ends the masking: the records before it
    were applied, its exception is the result, and no text is returned. *)
Theorem mask_text_aborts (text : str) (before : list dict) (bad : dict)
    (after : list dict) (masked : str) (e : exn) :
  mask_text text before = Ok masked →
  mask_item masked bad = Raise e →
  mask_text text (before ++ bad :: after) = Raise e.
Proof.
  intros Hbefore Hbad. rewrite mask_text_app, Hbefore.
  cbn [mbind result_bind mask_text]. by rewrite Hbad.
Qed.

Lemma mask_text_aborts_witness :
  mask_text (lit "id 1234 5678 9012")
    ([to_item aadhaar_sample] ++ <[lit "value" := PInt 7]> ∅ :: [to_item aadhaar_sample])
  = Raise TypeError.
Proof.
  apply (mask_text_aborts _ _ _ _ (lit "id XXXX XXXX 9012")); vm_compute; reflexivity.
Defined.

(** X16: whatever the caller selects among the detections of [detect_pii], in
    any order and on any text, masking it returns normally. *)
Theorem mask_text_of_detections (ucd : UnicodeData) (nlp : str → list Span)
    (text text' : str) (selected : list dict) :
  Forall (λ it, it ∈ detect_pii ucd nlp text) selected →
  ∃ out, mask_text text' selected = Ok out.
Proof.
  intros Hsel. apply mask_text_value_ok. apply forallb_forall.
  intros it Hit%list_elem_of_In.
  apply (proj1 (Forall_forall _ _) Hsel) in Hit.
  apply (proj1 (forallb_forall _ _) (detect_pii_value_ok ucd nlp text)).
  by apply list_elem_of_In.
Qed.

Lemma mask_text_of_detections_witness :
  ∃ out,
    mask_text sample_text
      [rule_hit "PHONE" (95 # 100) (lit "9876543210"); to_item aadhaar_sample]
    = Ok out.
Proof.
  apply (mask_text_of_detections ascii_ucd sample_nlp sample_text).
  apply Forall_cons_2;
    [apply (list_elem_of_lookup_2 _ 2); vm_compute; reflexivity|].
  apply Forall_cons_2;
    [apply (list_elem_of_lookup_2 _ 0); vm_compute; reflexivity|].
  apply Forall_nil_2.
Defined.

(** ** Masking a masked value *)

Lemma py_eq_str_true (x : pyval) (s : str) : py_eq_str x s = true → x = PStr s.
Proof. destruct x; try done. simpl. by intros ->%bool_decide_eq_true. Qed.

Lemma length_last_n (n : nat) (v : str) : n ≤ length v → length (last_n n v) = n.
Proof. intros H. unfold last_n. rewrite length_drop. lia. Qed.

Lemma split_parts_clean (a : N) (s : str) :
  Forall (λ p, contains [a] p = false) (split_from [a] 0 s).
Proof.
  induction s as [|c s IH]; [by repeat constructor|].
  cbn [split_from starts_with length]. rewrite andb_true_r.
  replace (1 - 1) with 0 by done.
  destruct (N.eqb_spec a c) as [->|Hne]; [by constructor|].
  assert ((a =? c)%N = false) as Hac by (by apply N.eqb_neq).
  destruct (split_from [a] 0 s) as [|p parts].
  - constructor; [|constructor]. cbn [contains starts_with]. by rewrite Hac.
  - inversion IH as [|?? Hp Hparts]; subst. constructor; [|done].
    cbn [contains starts_with]. by rewrite Hp, Hac.
Qed.

(** X17: the mask of a value is its own mask: masking again with the same type
    changes nothing, provided the value is at least as long as the suffix
    its type keeps (four code points for AADHAAR and PHONE, three for
    PAN). *)
Theorem mask_value_idempotent (v : str) (pii_type : pyval) (masked : str) :
  mask_value (PStr v) pii_type = Ok masked →
  (pii_type = PStr (lit "AADHAAR") ∨ pii_type = PStr (lit "PHONE") →
   4 ≤ length v) →
  (pii_type = PStr (lit "PAN") → 3 ≤ length v) →
  mask_value (PStr masked) pii_type = Ok masked.
Proof.
  intros Hm H4 H3.
  assert (∀ a b : str, Ok a = Ok b → a = b) as Ok_inj by (by intros a b [= ->]).
  destruct (py_eq_str pii_type (lit "AADHAAR")) eqn:E1.
  { apply py_eq_str_true in E1 as ->. rewrite mask_value_aadhaar in *.
    apply Ok_inj in Hm as <-. rewrite last_n_app; [done|].
    apply length_last_n. auto. }
  destruct (py_eq_str pii_type (lit "PAN")) eqn:E2.
  { apply py_eq_str_true in E2 as ->. rewrite mask_value_pan in *.
    apply Ok_inj in Hm as <-. rewrite last_n_app; [done|].
    apply length_last_n. auto. }
  destruct (py_eq_str pii_type (lit "PHONE")) eqn:E3.
  { apply py_eq_str_true in E3 as ->. rewrite mask_value_phone in *.
    apply Ok_inj in Hm as <-. rewrite last_n_app; [done|].
    apply length_last_n. auto. }
  destruct (py_eq_str pii_type (lit "EMAIL")) eqn:E4.
  { apply py_eq_str_true in E4 as ->. rewrite mask_value_email in *.
    cbn zeta in *. pose proof (split_parts_clean 64 v) as Hclean.
    change (lit "@") with [64%N] in *.
    destruct (split_from [64%N] 0 v) as [|p0 [|p1 [|p2 parts]]];
      cbn [length Nat.eqb] in Hm; apply Ok_inj in Hm as <-;
      try (vm_compute; reflexivity).
    cbn [lookup list_lookup from_option id].
    change (lit "xxxxx@" ++ p1) with (lit "xxxxx" ++ 64%N :: p1).
    rewrite split_from_char_one; [done|by vm_compute|].
    inversion Hclean as [|?? _ Hrest]; subst.
    by inversion Hrest. }
  unfold mask_value in *. by rewrite E1, E2, E3, E4 in *.
Qed.

Lemma mask_value_idempotent_witness :
  mask_value (PStr (lit "XXXX XXXX 9012")) (PStr (lit "AADHAAR"))
  = Ok (lit "XXXX XXXX 9012").
Proof.
  apply (mask_value_idempotent (lit "1234 5678 9012")).
  - vm_compute. reflexivity.
  - intros _. vm_compute. lia.
  - intros H. vm_compute in H. discriminate H.
Defined.

(** ** The recognizer wrapper *)

(** X10: [detect_pii_ml] keeps the entities labelled PERSON, GPE or LOC, in the
    recognizer's order, and drops every other entity: a PERSON becomes a
    NAME record of confidence 0.75, a GPE or LOC an ADDRESS record of
    confidence 0.70, each with the entity's text as value. *)
Theorem detect_pii_ml_filter (nlp : str → list Span) (text : str) :
  detect_pii_ml nlp text
  = (λ ent,
       let person := bool_decide (label_ ent = lit "PERSON") in
       to_item (mkDetection (if person then lit "NAME" else lit "ADDRESS")
                  (span_text text ent)
                  (if person then 75 # 100 else 70 # 100) (lit "ml")))
    <$> filter (λ ent, kept_label ent = true) (nlp text).
Proof.
  unfold detect_pii_ml. generalize (nlp text) as ents.
  induction ents as [|ent ents IH]; [done|].
  rewrite fmap_cons. cbn [concat]. rewrite IH.
  destruct (kept_label ent) eqn:Hk.
  - rewrite filter_cons_True by done. rewrite fmap_cons. cbn beta zeta.
    unfold ml_hit. unfold kept_label in Hk.
    destruct (bool_decide (label_ ent = lit "PERSON")); [done|].
    cbn [orb] in Hk. by rewrite Hk.
  - rewrite filter_cons_False by (by rewrite Hk).
    unfold ml_hit. unfold kept_label in Hk.
    destruct (bool_decide (label_ ent = lit "PERSON")); [done|].
    cbn [orb] in Hk. by rewrite Hk.
Qed.

(** ** The page loop of [read_pdf] *)

Lemma read_pdf_fold (page_texts : list (option str)) (text : str) :
  fold_left
    (λ text page_text,
       match page_text with
       | Some t => if bool_decide (t = []) then text else text ++ (t ++ newline)
       | None => text
       end)
    page_texts text
  = text ++ read_pdf page_texts.
Proof.
  unfold read_pdf. revert text.
  induction page_texts as [|p pages IH]; intros text; cbn [fold_left].
  - by rewrite app_nil_r.
  - rewrite IH, (IH (match p with Some t => _ | None => _ end)).
    destruct p as [t|]; [|done].
    destruct (bool_decide (t = [])); [done|].
    by rewrite app_nil_l, <- !app_assoc.
Qed.

(** X18: [read_pdf] returns the texts of the pages that have one, in page
    order, each followed by a line feed; a page whose extraction gives
    [None] or the empty string leaves no trace, not even a line feed. *)
Theorem read_pdf_pages (page_texts : list (option str)) :
  read_pdf page_texts
  = concat ((λ t, t ++ newline) <$> filter (λ t, t ≠ []) (omap id page_texts)).
Proof.
  induction page_texts as [|p pages IH]; [done|].
  change (read_pdf (p :: pages))
    with (fold_left
            (λ text page_text,
               match page_text with
               | Some t => if bool_decide (t = []) then text else text ++ (t ++ newline)
               | None => text
               end)
            pages
            (match p with
             | Some t => if bool_decide (t = []) then [] else [] ++ (t ++ newline)
             | None => []
             end)).
  rewrite read_pdf_fold, IH. destruct p as [t|]; [|done].
  cbn [omap list_omap id]. destruct (decide (t = [])) as [->|Hne].
  - by rewrite filter_cons_False by (by intros H; apply H).
  - rewrite bool_decide_eq_false_2 by done.
    by rewrite filter_cons_True by done.
Qed.

(** X19: the extracted text is empty exactly when no page has a text. *)
Theorem read_pdf_empty_iff (page_texts : list (option str)) :
  read_pdf page_texts = [] ↔ Forall (λ p, p = None ∨ p = Some []) page_texts.
Proof.
  induction page_texts as [|p pages IH].
  - split; [constructor|done].
  - change (read_pdf (p :: pages))
      with (fold_left
              (λ text page_text,
                 match page_text with
                 | Some t => if bool_decide (t = []) then text else text ++ (t ++ newline)
                 | None => text
                 end)
              pages
              (match p with
               | Some t => if bool_decide (t = []) then [] else [] ++ (t ++ newline)
               | None => []
               end)).
    rewrite read_pdf_fold, Forall_cons, <- IH.
    destruct p as [t|]; [|by intuition].
    destruct (decide (t = [])) as [->|Hne]; [by intuition|].
    rewrite bool_decide_eq_false_2 by done. split.
    + intros [H _]%app_eq_nil. rewrite app_nil_l in H.
      by apply app_eq_nil in H as [-> _].
    + intros [[|[= ->]] _]; done.
Qed.

Lemma read_pdf_empty_iff_witness : read_pdf [None; Some []; None] = [].
Proof.
  apply (proj2 (read_pdf_empty_iff [None; Some []; None])).
  repeat (apply Forall_cons_2; [by auto|]). apply Forall_nil_2.
Defined.

(** ** The detection summary of the dashboard *)

Lemma py_eq_refl (x : pyval) : py_eq x x = true.
Proof.
  destruct x as [| b | z | q | s]; simpl; try apply Qeq_bool_refl; try done.
  by apply bool_decide_eq_true_2.
Qed.

Lemma py_eq_sym (x y : pyval) : py_eq x y = true → py_eq y x = true.
Proof.
  destruct x, y; simpl; try done; try apply Qeq_bool_sym.
  intros ->%bool_decide_eq_true. by apply bool_decide_eq_true_2.
Qed.

Lemma py_eq_trans (x y z : pyval) :
  py_eq x y = true → py_eq y z = true → py_eq x z = true.
Proof.
  destruct x, y, z; simpl; try done; try apply Qeq_bool_trans.
  intros ->%bool_decide_eq_true ->%bool_decide_eq_true.
  by apply bool_decide_eq_true_2.
Qed.

Lemma py_eq_same (x y z : pyval) :
  py_eq x y = true → py_eq x z = py_eq y z.
Proof.
  intros Hxy. destruct (py_eq y z) eqn:Hyz.
  - by apply (py_eq_trans x y z).
  - destruct (py_eq x z) eqn:Hxz; [|done].
    rewrite <- Hyz. symmetry. apply (py_eq_trans y x z); [|done].
    by apply py_eq_sym.
Qed.

Lemma counts_get_set (counts : list (pyval * nat)) (k t : pyval) (n dflt : nat) :
  counts_get (counts_set counts k n) t dflt
  = if py_eq k t then n else counts_get counts t dflt.
Proof.
  induction counts as [|[k0 m] counts IH]; [done|].
  cbn [counts_set counts_get]. destruct (py_eq k0 k) eqn:Hk.
  - cbn [counts_get]. rewrite (py_eq_same k0 k t Hk).
    by destruct (py_eq k t).
  - cbn [counts_get]. rewrite IH. destruct (py_eq k0 t) eqn:H0; [|done].
    destruct (py_eq k t) eqn:Ht; [|done].
    rewrite (py_eq_trans k0 t k H0 (py_eq_sym _ _ Ht)) in Hk. discriminate Hk.
Qed.

Lemma counts_get_same (counts : list (pyval * nat)) (k t : pyval) (dflt : nat) :
  py_eq k t = true → counts_get counts k dflt = counts_get counts t dflt.
Proof.
  intros Hkt. induction counts as [|[k0 m] counts IH]; [done|].
  cbn [counts_get].
  assert (py_eq k0 k = py_eq k0 t) as ->; [|by rewrite IH].
  destruct (py_eq k0 k) eqn:H0.
  - symmetry. by apply (py_eq_trans k0 k t).
  - destruct (py_eq k0 t) eqn:H1; [|done]. rewrite <- H0.
    apply (py_eq_trans k0 t k); [done|by apply py_eq_sym].
Qed.

Lemma counts_set_total (counts : list (pyval * nat)) (t : pyval) :
  sum_list (snd <$> counts_set counts t (counts_get counts t 0 + 1))
  = S (sum_list (snd <$> counts)).
Proof.
  induction counts as [|[k m] counts IH]; [done|].
  cbn [counts_set counts_get]. destruct (py_eq k t).
  - rewrite !fmap_cons. simpl. lia.
  - rewrite !fmap_cons. cbn [sum_list sum_list_with snd]. cbn [sum_list] in IH.
    rewrite IH. lia.
Qed.

Lemma type_counts_fold (items : list dict) (counts : list (pyval * nat)) (t : pyval) :
  sum_list (snd <$> fold_left count_step items counts)
  = sum_list (snd <$> counts) + length items
  ∧ counts_get (fold_left count_step items counts) t 0
    = counts_get counts t 0
      + length (filter
                  (λ it, py_eq (get it "type" (PStr (lit "UNKNOWN"))) t = true)
                  items).
Proof.
  revert counts. induction items as [|it items IH]; intros counts.
  - simpl. split; lia.
  - cbn [fold_left]. destruct (IH (count_step counts it)) as [-> ->].
    unfold count_step. rewrite counts_set_total, counts_get_set. split.
    + simpl. lia.
    + destruct (py_eq (get it "type" (PStr (lit "UNKNOWN"))) t) eqn:Ht.
      * rewrite filter_cons_True by done.
        rewrite (counts_get_same counts _ t 0 Ht). simpl. lia.
      * rewrite filter_cons_False by (by rewrite Ht). done.
Qed.

(** X20: the summary counts every record once, under its type (["UNKNOWN"] when
    the record has none): the count shown for a type is the number of
    records of that type, and the counts add up to the number of
    records. *)
Theorem type_counts_spec (pii_items : list dict) (t : pyval) :
  sum_list (snd <$> type_counts pii_items) = length pii_items
  ∧ counts_get (type_counts pii_items) t 0
    = length (filter
                (λ it, py_eq (get it "type" (PStr (lit "UNKNOWN"))) t = true)
                pii_items).
Proof.
  unfold type_counts. destruct (type_counts_fold pii_items [] t) as [-> ->].
  done.
Qed.

(** ** Selection and the masking button *)

Lemma default_checked_true (auto_mask_high_conf : bool) (confidence : Q) :
  default_checked auto_mask_high_conf confidence = true.
Proof.
  unfold default_checked.
  by destruct (auto_mask_high_conf && negb (Qle_bool (90 # 100) confidence)).
Qed.

(** X21: with the checkboxes left as they start, every detection is selected,
    whether or not the high-confidence switch is on and whatever the
    confidences are: the switch has no effect on the selection. *)
Theorem default_selection_is_everything (auto_mask_high_conf : bool)
    (confidence : nat → Q) (pii_items : list dict) (i : nat) :
  selected_items pii_items
    (λ j, default_checked auto_mask_high_conf (confidence j)) i
  = pii_items.
Proof.
  revert i. induction pii_items as [|it items IH]; intros i; [done|].
  cbn [selected_items]. by rewrite default_checked_true, IH.
Qed.

Lemma selected_items_value_ok (pii_items : list dict) (ticked : nat → bool) :
  ∀ i, forallb value_ok pii_items = true →
       forallb value_ok (selected_items pii_items ticked i) = true.
Proof.
  induction pii_items as [|it items IH]; intros i; [done|].
  cbn [forallb selected_items]. intros [Hit Hitems]%andb_prop.
  destruct (ticked i); [cbn [forallb]; rewrite Hit|]; by apply IH.
Qed.

(** X22: pressing the masking button on what [detect_pii] found never ends in an
    exception, whichever boxes are ticked: with nothing ticked the user is
    warned and [mask_text] is not called, otherwise the masked text is
    shown. *)
Theorem apply_masking_never_raises (ucd : UnicodeData) (nlp : str → list Span)
    (text : str) (ticked : nat → bool) :
  let selected := selected_items (detect_pii ucd nlp text) ticked 0 in
  (selected = [] ∧ apply_masking text selected = Warning)
  ∨ (selected ≠ [] ∧ ∃ masked, apply_masking text selected = MaskedText (Ok masked)).
Proof.
  cbn zeta.
  pose proof (selected_items_value_ok _ ticked 0 (detect_pii_value_ok ucd nlp text))
    as Hok.
  destruct (selected_items (detect_pii ucd nlp text) ticked 0) as [|it sel] eqn:Hsel.
  - by left.
  - right. split; [done|].
    destruct (mask_text_value_ok (it :: sel) text Hok) as [masked Hm].
    exists masked. unfold apply_masking. by rewrite Hm.
Qed.

(** ** Texts without word characters *)

Lemma scan_no_word (is_word : N → bool) (pat : list item) (s : str) :
  Forall (λ c, is_word c = false) s →
  ∀ skip prev,
    word_at is_word prev = false →
    scan is_word (WordBoundary :: pat) skip prev s = [].
Proof.
  induction 1 as [|c s Hc _ IH]; intros skip prev Hprev.
  - cbn [scan match_here head word_at]. rewrite Hprev. by destruct skip.
  - cbn [scan match_here head word_at]. rewrite Hprev, Hc. cbn [xorb].
    destruct skip; by apply IH.
Qed.

(** X11: every pattern of the catalog starts at a word boundary, so a text
    without word characters (letters, digits, underscore), the empty text
    among them, has no rule detection. *)
Theorem no_word_no_rules (ucd : UnicodeData) (text : str) :
  Forall (λ c, re_word ucd c = false) text →
  detect_pii_rules ucd text = [].
Proof.
  intros Htext. unfold detect_pii_rules, finditer, aadhaar_pattern, pan_pattern,
    phone_pattern, email_pattern.
  by rewrite !scan_no_word.
Qed.

Lemma no_word_no_rules_witness :
  detect_pii_rules ascii_ucd (lit "--- (...) @ +/- !?") = [].
Proof.
  apply no_word_no_rules.
  repeat (apply Forall_cons_2; [reflexivity|]). apply Forall_nil_2.
Defined.

(** * The scan, position by position *)

(** Behind a prefix the scan goes on with what is still pending of the
    last reported match. *)
Lemma scan_pending (is_word : N → bool) (pat : list item) (pre rest : str) :
  ∀ skip prev,
    ∃ found,
      scan is_word pat skip prev (pre ++ rest)
      = found ++ scan is_word pat (pending is_word pat skip prev pre rest)
                   (prev_after prev pre) rest.
Proof.
  induction pre as [|c pre IH]; intros skip prev; [by exists []|].
  rewrite prev_after_cons. cbn [pending]. cbn [app scan].
  destruct skip as [|skip]; [|apply IH].
  destruct (match_here is_word pat prev (c :: pre ++ rest)) as [[|n]|].
  - destruct (IH 0 (Some c)) as [found ->]. by exists ([] :: found).
  - destruct (IH n (Some c)) as [found ->]. by eexists (_ :: found).
  - apply IH.
Qed.

(** A non-empty match that the scan reports stands at a position the scan
    arrives at with nothing pending, and is the match found there. *)
Lemma scan_elem_inv (is_word : N → bool) (pat : list item) (s : str) :
  ∀ skip prev v,
    v ∈ scan is_word pat skip prev s → v ≠ [] →
    ∃ pre post,
      s = pre ++ v ++ post
      ∧ pending is_word pat skip prev pre (v ++ post) = 0
      ∧ match_here is_word pat (prev_after prev pre) (v ++ post)
        = Some (length v).
Proof.
  induction s as [|c s IH]; intros skip prev v.
  - cbn [scan]. destruct skip, (match_here is_word pat prev []);
      intros Hin Hne; try by apply elem_of_nil in Hin.
    by apply list_elem_of_singleton in Hin.
  - assert (∀ k, v ∈ scan is_word pat k (Some c) s → v ≠ [] →
              ∃ pre post,
                c :: s = (c :: pre) ++ v ++ post
                ∧ pending is_word pat k (Some c) pre (v ++ post) = 0
                ∧ match_here is_word pat (prev_after prev (c :: pre)) (v ++ post)
                  = Some (length v)) as Hrest.
    { intros k Hin Hne. destruct (IH k (Some c) v Hin Hne)
        as (pre & post & -> & Hp & Hm).
      exists pre, post. by rewrite prev_after_cons. }
    cbn [scan]. destruct skip as [|skip].
    + destruct (match_here is_word pat prev (c :: s)) as [[|n]|] eqn:Hm.
      * intros [->|Hin]%elem_of_cons Hne; [done|].
        destruct (Hrest 0 Hin Hne) as (pre & post & Hs & Hp & Hm').
        exists (c :: pre), post. split_and!; [done| |done].
        cbn [pending]. by rewrite <- Hs, Hm.
      * intros [->|Hin]%elem_of_cons Hne.
        -- exists [], (drop (S n) (c :: s)).
           pose proof (match_here_shape _ _ _ _ _ Hm) as [Hlen _].
           rewrite app_nil_l, take_drop.
           split_and!; [done|done|].
           cbn [prev_after last]. by rewrite Hm, length_take_le.
        -- destruct (Hrest n Hin Hne) as (pre & post & Hs & Hp & Hm').
           exists (c :: pre), post. split_and!; [done| |done].
           cbn [pending]. by rewrite <- Hs, Hm.
      * intros Hin Hne.
        destruct (Hrest 0 Hin Hne) as (pre & post & Hs & Hp & Hm').
        exists (c :: pre), post. split_and!; [done| |done].
        cbn [pending]. by rewrite <- Hs, Hm.
    + intros Hin Hne.
      destruct (Hrest skip Hin Hne) as (pre & post & Hs & Hp & Hm').
      by exists (c :: pre), post.
Qed.

(** The Aadhaar pattern at the literal ["1234 5678 9012"]: it matches, all
    fourteen code points, exactly between two word boundaries. *)
Lemma aadhaar_literal_match (ucd : UnicodeData) (prev : option N) (post : str) :
  agrees_on_ascii ucd = true →
  match_here (re_word ucd) (aadhaar_pattern ucd) prev (lit "1234 5678 9012" ++ post)
  = if negb (word_at (re_word ucd) prev)
       && negb (word_at (re_word ucd) (head post))
    then Some 14 else None.
Proof.
  intros Hucd.
  assert (∀ b, forallb (in_range "0" "9") b = true →
               Forall (λ c, re_digit ucd c = true) b) as Hdigits.
  { intros b Hb. apply Forall_forall. intros c Hc%list_elem_of_In.
    apply ascii_digit; [done|]. by apply (proj1 (forallb_forall _ _) Hb). }
  assert (re_space ucd 32 = true) as Hspace.
  { destruct (same_class_spec ucd ascii_ucd 32) as (_ & -> & _); [|done].
    by apply agrees_on_ascii_spec. }
  assert (∀ c, in_range "0" "9" c = true → re_word ucd c = true) as Hword.
  { intros c Hc. by apply re_digit_word, ascii_digit. }
  unfold aadhaar_pattern, Times, One. cbn [match_here].
  change (head (lit "1234 5678 9012" ++ post)) with (Some 49%N).
  cbn [word_at]. rewrite (Hword 49%N) by done.
  destruct (word_at (re_word ucd) prev); [done|]. cbn [xorb negb andb].
  change (lit "1234 5678 9012" ++ post)
    with (lit "1234" ++ [32%N] ++ lit "5678" ++ [32%N] ++ lit "9012" ++ post).
  rewrite (rep_exact _ _ 4 (lit "1234")) by (done || by apply Hdigits).
  rewrite (rep_exact _ _ 1 [32%N]) by (done || by repeat constructor).
  rewrite (rep_exact _ _ 4 (lit "5678")) by (done || by apply Hdigits).
  rewrite (rep_exact _ _ 1 [32%N]) by (done || by repeat constructor).
  rewrite (rep_exact _ _ 4 (lit "9012")) by (done || by apply Hdigits).
  cbn [match_here].
  change (prev_after (prev_after (prev_after (prev_after (prev_after prev
            (lit "1234")) [32%N]) (lit "5678")) [32%N]) (lit "9012"))
    with (Some 50%N).
  cbn [word_at]. rewrite (Hword 50%N) by done.
  by destruct (word_at (re_word ucd) (head post)).
Qed.

Lemma detect_pii_rules_elem (ucd : UnicodeData) (text : str) (it : dict) :
  it ∈ detect_pii_rules ucd text
  ↔ (∃ v, it = rule_hit "AADHAAR" (98 # 100) v ∧ v ∈ finditer ucd (aadhaar_pattern ucd) text)
    ∨ (∃ v, it = rule_hit "PAN" (97 # 100) v ∧ v ∈ finditer ucd (pan_pattern ucd) text)
    ∨ (∃ v, it = rule_hit "PHONE" (95 # 100) v ∧ v ∈ finditer ucd (phone_pattern ucd) text)
    ∨ (∃ v, it = rule_hit "EMAIL" (95 # 100) v ∧ v ∈ finditer ucd email_pattern text).
Proof.
  unfold detect_pii_rules. rewrite app_nil_l.
  rewrite !elem_of_app, !list_elem_of_fmap. tauto.
Qed.

(** The sample Aadhaar record is in the output of [detect_pii] only as a
    match of the Aadhaar pattern. *)
Lemma aadhaar_sample_elem (ucd : UnicodeData) (nlp : str → list Span) (text : str) :
  to_item aadhaar_sample ∈ detect_pii ucd nlp text
  ↔ lit "1234 5678 9012" ∈ finditer ucd (aadhaar_pattern ucd) text.
Proof.
  rewrite detect_pii_unfold, elem_of_app, detect_pii_rules_elem. split.
  - assert (∀ ty c v, to_item aadhaar_sample = rule_hit ty c v →
              lit "AADHAAR" = lit ty ∧ lit "1234 5678 9012" = v) as Hinj.
    { intros ty c v Heq. unfold rule_hit in Heq. split.
      - apply (f_equal (λ it : dict, it !! lit "type")) in Heq.
        rewrite !lookup_type_to_item in Heq. by injection Heq.
      - apply (f_equal (λ it : dict, it !! lit "value")) in Heq.
        rewrite !lookup_value_to_item in Heq. by injection Heq. }
    intros [[(v & Heq & Hv)|[(v & Heq & Hv)|[(v & Heq & Hv)|(v & Heq & Hv)]]]|Hml].
    + by apply Hinj in Heq as [_ <-].
    + apply Hinj in Heq as [Hty _]. vm_compute in Hty. discriminate Hty.
    + apply Hinj in Heq as [Hty _]. vm_compute in Hty. discriminate Hty.
    + apply Hinj in Heq as [Hty _]. vm_compute in Hty. discriminate Hty.
    + apply detect_pii_ml_spec in Hml as (d & _ & _ & Heq & _ & Hty).
      apply (f_equal (λ it : dict, it !! lit "type")) in Heq.
      rewrite !lookup_type_to_item in Heq.
      destruct Hty as [Hty|Hty]; rewrite Hty in Heq; vm_compute in Heq;
        discriminate Heq.
  - intros Hin. left. left. by exists (lit "1234 5678 9012").
Qed.

(** C1, as the code has it: [detect_pii] reports ["1234 5678 9012"] with
    type AADHAAR, confidence 0.98 and the rule tag exactly when the literal
    occurs in the text between two word boundaries (not directly preceded or
    followed by a word character) at a position that the left-to-right scan
    of the Aadhaar pattern arrives at with no reported match still
    pending. *)
Theorem detect_pii_aadhaar_literal (ucd : UnicodeData) (nlp : str → list Span)
    (text : str) :
  agrees_on_ascii ucd = true →
  to_item aadhaar_sample ∈ detect_pii ucd nlp text
  ↔ ∃ pre post,
      text = pre ++ lit "1234 5678 9012" ++ post
      ∧ word_at (re_word ucd) (last pre) = false
      ∧ word_at (re_word ucd) (head post) = false
      ∧ pending (re_word ucd) (aadhaar_pattern ucd) 0 None pre
          (lit "1234 5678 9012" ++ post) = 0.
Proof.
  intros Hucd. rewrite aadhaar_sample_elem. unfold finditer.
  assert (∀ pre, prev_after None pre = last pre) as Hlast
    by (intros pre; unfold prev_after; by destruct (last pre)).
  split.
  - intros Hin. apply scan_elem_inv in Hin as (pre & post & -> & Hp & Hm);
      [|by vm_compute].
    rewrite Hlast, aadhaar_literal_match in Hm by done.
    exists pre, post. split; [done|].
    destruct (word_at (re_word ucd) (last pre)); [done|].
    by destruct (word_at (re_word ucd) (head post)).
  - intros (pre & post & -> & Hpre & Hpost & Hp).
    destruct (scan_pending (re_word ucd) (aadhaar_pattern ucd) pre
                (lit "1234 5678 9012" ++ post) 0 None) as [found ->].
    rewrite Hp, Hlast. apply elem_of_app. right.
    change (lit "1234 5678 9012")
      with (take 14 (lit "1234 5678 9012" ++ post)) at 1.
    apply scan_reports. by rewrite aadhaar_literal_match, Hpre, Hpost.
Qed.

Lemma detect_pii_aadhaar_literal_witness :
  to_item aadhaar_sample
  ∈ detect_pii ascii_ucd (λ _, [])
      (lit "1111 2222 3333
1234 5678 9012").
Proof.
  apply (proj2 (detect_pii_aadhaar_literal ascii_ucd (λ _, []) _ eq_refl)).
  exists (lit "1111 2222 3333
"), []. split_and!; vm_compute; reflexivity.
Defined.

(** C3 as stated fails where occurrences of the value overlap: in
    ["1234 1234 1234 1234 1234"] the value ["1234 1234 1234"] occurs at
    offsets 0, 5 and 10; the scan replaces the occurrence at 0 and resumes
    behind it, so the occurrence at offset 10 is still there, unchanged, in
    the masked text. *)
Lemma mask_text_replace_all_counterexample :
  let d := mkDetection (lit "AADHAAR") (lit "1234 1234 1234") (98 # 100) (lit "rule") in
  let text := lit "1234 1234 1234 1234 1234" in
  let masked := lit "XXXX XXXX 1234 1234 1234" in
  starts_with (d_value d) (drop 10 text) = true
  ∧ mask_text text [to_item d] = Ok masked
  ∧ starts_with (d_value d) (drop 10 masked) = true
  ∧ contains (d_value d) masked = true.
Proof. split_and!; vm_compute; reflexivity. Qed.

(** * Which records [mask_text] gets through *)





